(** * typer: the typing-session engine of [typer.py]

    A shallow embedding of the parts of [typer.py] that decide how a round is
    typed, timed, classified and aggregated:

    - [TyperacerGame.normalize_text], [normalize_accents], [is_complete],
      [calculate_wpm], [calculate_tier], [save_stats], [get_historical_stats];
    - the key handling of [main_curses] (one iteration of the inner loop) and
      the end-of-round block that follows the loop;

    of the parts that lay the quote out on the screen:

    - [CursesUI.wrap_text_preserve_chars], [center_text], [render_quote] and
      [render_game_screen];

    and of the quote files, as [fetcher.py] writes them and [typer.py] reads
    them:

    - [BookMetadata.format_metadata_line], [save_quote_immediately],
      [get_starting_quote_number], [QuoteExtractor.trim_book_content] and
      [QuoteExtractor.is_valid_quote];
    - [TyperacerGame.load_quotes] and [parse_metadata].

    Python values are modelled as the interpreter has them: a [str] is a
    sequence of Unicode code points, a [float] is an IEEE 754 binary64
    (Rocq's primitive floats), [None]-or-value is an [option], a [dict] is a
    finite map, and an exception is an explicit [Raise] result.  Functions of
    the Python runtime that the program calls but that are not part of the
    repository (the Unicode character database, [round], [sum], the
    text form of floats in a CSV cell) are parameters of the sections below;
    concrete instances are given afterwards to evaluate examples. *)

From Stdlib Require Import ZArith NArith DecimalN Lia Floats Uint63 String Ascii.
From stdpp Require Import base option list gmap.

Local Open Scope Z_scope.

(** ** Python runtime: strings, exceptions *)

(** A code point, as [ord] returns it. *)
Abbreviation codepoint := N.

(** A Python [str]. *)
Abbreviation pystr := (list N).

(** The exceptions the modelled code can raise. *)
Inductive exn : Type :=
  | IndexError
  | KeyError
  | ValueError
  | TypeError
  | OSError
  | ZeroDivisionError
  | KeyboardInterrupt.

(** The result of running a fragment that may raise. *)
Inductive result (A : Type) : Type :=
  | Ok (a : A)
  | Raise (e : exn).
Arguments Ok {A} a.
Arguments Raise {A} e.

#[global] Instance result_ret : MRet result := fun _ a => Ok a.

#[global] Instance result_bind : MBind result := fun _ _ k m =>
  match m with
  | Ok a => k a
  | Raise e => Raise e
  end.

(** [try: body except: return handler] for a bare [except]. *)
Definition try_except {A} (body : result A) (handler : A) : A :=
  match body with
  | Ok a => a
  | Raise _ => handler
  end.

(** ** Unicode normalization, as [unicodedata] performs it

    [unicodedata.normalize('NFD', s)] replaces every character by its full
    canonical decomposition and then puts every run of characters of non-zero
    canonical combining class into canonical order (a stable sort of the run by
    combining class; UAX #15).  The character database itself is a parameter:
    [combining] is [unicodedata.combining], [decomposition] is the full
    canonical decomposition of a code point (the code point
    itself when it has none), [is_Mn c] is
    [unicodedata.category(c) == 'Mn']. *)
Section Unicode.
Variable combining : codepoint -> N.
Variable decomposition : codepoint -> pystr.
Variable is_Mn : codepoint -> bool.

(** Moves [c] to the right past every following mark that must precede it:
    the pair [(c, d)] is exchanged when [combining c > combining d > 0]. *)
Fixpoint insert_mark (c : codepoint) (l : pystr) : pystr :=
  match l with
  | [] => [c]
  | d :: l' =>
      if ((0 <? combining d) && (combining d <? combining c))%N
      then d :: insert_mark c l'
      else c :: l
  end.

Definition canonical_order (s : pystr) : pystr :=
  foldr insert_mark [] s.

Definition normalize_NFD (s : pystr) : pystr :=
  canonical_order (flat_map decomposition s).

(** [TyperacerGame.normalize_accents] *)
Definition normalize_accents (text : pystr) : pystr :=
  let nfd := normalize_NFD text in
  let without_accents := filter (fun char => is_Mn char = false) nfd in
  without_accents.

(** The database property the decomposition table has by construction: the
    characters of a full decomposition do not decompose further. *)
Definition decomposition_closed : Prop :=
  forall c d, d ∈ decomposition c -> decomposition d = [d].

(** The strings on which removing the nonspacing marks leaves only
    starters: every character of the decomposed text that is not of
    category [Mn] has combining class 0. *)
Definition spacing_are_starters (s : pystr) : Prop :=
  Forall (fun c => is_Mn c = false -> combining c = 0%N) (normalize_NFD s).
End Unicode.

(** ** Quote punctuation *)

(** [self.quote_normalization_table], the result of [str.maketrans]: a [dict]
    from code points to replacement strings. *)
Definition quote_normalization_table : gmap codepoint pystr :=
  {[ 0x201C%N := [34%N];    (* left double quote   -> U+0022 *)
     0x201D%N := [34%N];    (* right double quote  -> U+0022 *)
     0x2018%N := [39%N];    (* left single quote   -> U+0027 *)
     0x2019%N := [39%N] ]}. (* right single quote  -> U+0027 *)

(** [str.translate]: a character with an entry is replaced by the entry, any
    other character is kept. *)
Definition translate (table : gmap codepoint pystr) (text : pystr) : pystr :=
  flat_map (fun c => default [c] (table !! c)) text.

(** [TyperacerGame.normalize_text] *)
Definition normalize_text (text : pystr) : pystr :=
  translate quote_normalization_table text.

(** ** Python runtime: integers, floats, sequences *)

(** A Python [float] is a binary64; its arithmetic and comparisons are the
    IEEE operations of [PrimFloat]. *)
Abbreviation pyfloat := PrimFloat.float.

(** [float(n)] for a Python [int]: exact for [|n| < 2^53], which covers every
    length and constant of the program. *)
Definition float_of_int (n : Z) : pyfloat :=
  if n <? 0 then (- PrimFloat.of_uint63 (Uint63.of_Z (- n)))%float
  else PrimFloat.of_uint63 (Uint63.of_Z n).

(** [x >= n] for a float [x] and an int [n]. *)
Definition float_ge_int (x : pyfloat) (n : Z) : bool :=
  (float_of_int n <=? x)%float.

(** [x / y] on floats: a zero divisor raises [ZeroDivisionError]. *)
Definition float_div (x y : pyfloat) : result pyfloat :=
  if (y =? 0)%float then Raise ZeroDivisionError else Ok (x / y)%float.

(** [x / n] for a float [x] and an int [n]: [n] is converted to a float,
    which is zero only for [n = 0]. *)
Definition float_div_int (x : pyfloat) (n : Z) : result pyfloat :=
  if n =? 0 then Raise ZeroDivisionError else Ok (x / float_of_int n)%float.

(** [a / b] for two ints (true division). *)
Definition int_truediv (a b : Z) : result pyfloat :=
  if b =? 0 then Raise ZeroDivisionError
  else Ok (float_of_int a / float_of_int b)%float.

(** A [str] literal of the program, as its code points. *)
Definition py (s : string) : pystr :=
  map N_of_ascii (list_ascii_of_string s).

(** [len(s)] *)
Definition len {A} (s : list A) : Z := Z.of_nat (length s).

(** [range(n)] *)
Definition py_range (n : Z) : list Z := seqZ 0 n.

(** [s[i]] on a [str] or a [list]: a negative index counts from the end, an
    index out of range raises [IndexError]. *)
Definition getitem {A} (s : list A) (i : Z) : result A :=
  let j := if i <? 0 then i + len s else i in
  if j <? 0 then Raise IndexError
  else match s !! Z.to_nat j with
       | Some c => Ok c
       | None => Raise IndexError
       end.

(** [s[:-1]] *)
Definition drop_last {A} (s : list A) : list A :=
  take (length s - 1)%nat s.

(** [not t] for a value that is [None] or a float: [None] and zero are
    falsy. *)
Definition not_time (t : option pyfloat) : bool :=
  match t with
  | None => true
  | Some x => (x =? 0)%float
  end.

(** ** Reward configuration *)

Module RewardConfig.
Definition PRISTINE_WPM : Z := 90.
Definition EXCEPTIONAL_WPM : Z := 80.
Definition ADEQUATE_WPM : Z := 70.
Definition PRISTINE_MAX_ERRORS : Z := 0.
End RewardConfig.

(** The keys of [RewardConfig.TIERS]. *)
Inductive Tier : Type :=
  | pristine
  | exceptional
  | adequate
  | disaster.

#[global] Instance Tier_eq_dec : EqDecision Tier.
Proof. solve_decision. Defined.

(** [TyperacerGame.calculate_tier] *)
Definition calculate_tier (wpm : pyfloat) (errors : Z) : Tier :=
  if float_ge_int wpm RewardConfig.PRISTINE_WPM
     && bool_decide (errors ≤ RewardConfig.PRISTINE_MAX_ERRORS)
  then pristine
  else if float_ge_int wpm RewardConfig.EXCEPTIONAL_WPM then exceptional
  else if float_ge_int wpm RewardConfig.ADEQUATE_WPM then adequate
  else disaster.

(** ** The game state *)

(** The fields of [TyperacerGame] that a round reads and writes. *)
Record Game : Type := mkGame {
  quote : pystr;
  typed_text : pystr;
  start_time : option pyfloat;
  end_time : option pyfloat;
  errors : Z
}.

Definition set_typed_text (v : pystr) (g : Game) : Game :=
  mkGame (quote g) v (start_time g) (end_time g) (errors g).
Definition set_start_time (v : option pyfloat) (g : Game) : Game :=
  mkGame (quote g) (typed_text g) v (end_time g) (errors g).
Definition set_end_time (v : option pyfloat) (g : Game) : Game :=
  mkGame (quote g) (typed_text g) (start_time g) v (errors g).
Definition set_errors (v : Z) (g : Game) : Game :=
  mkGame (quote g) (typed_text g) (start_time g) (end_time g) v.

(** [TyperacerGame.reset_for_new_round], after [load_quotes] stored [q]. *)
Definition reset_for_new_round (q : pystr) : Game :=
  mkGame q [] None None 0.

(** [curses.KEY_BACKSPACE] *)
Definition KEY_BACKSPACE : Z := 263.

(** How one iteration of the typing loop ends: the loop goes on, [break]
    leaves it, or an exception propagates. *)
Inductive outcome : Type :=
  | Continue (g : Game)
  | Break (g : Game)
  | Raised (e : exn).

(** The game an iteration leaves behind (the game it started from when an
    exception propagates). *)
Definition game_after (o : outcome) (g : Game) : Game :=
  match o with
  | Continue g' | Break g' => g'
  | Raised _ => g
  end.

(** How the typing loop of a round ends. [Waiting]: the keys ran out and the
    loop is blocked in [getch]. *)
Inductive round_end : Type :=
  | Completed
  | Shortcut
  | Interrupted (e : exn)
  | Waiting.

(** What the end of a round computes and records. *)
Record RoundSummary : Type := mkSummary {
  final_wpm : pyfloat;
  elapsed_time : pyfloat;
  tier : Tier
}.

Section Engine.
Variable combining : codepoint -> N.
Variable decomposition : codepoint -> pystr.
Variable is_Mn : codepoint -> bool.
(** The builtin [round(x, ndigits)] on floats. *)
Variable py_round : pyfloat -> Z -> pyfloat.

Local Abbreviation accents := (normalize_accents combining decomposition is_Mn).

(** The typed character at [i] folds to the same text as the target
    character at [i]. *)
Definition folded_equal_at (g : Game) (i : nat) : Prop :=
  forall tc qc,
    typed_text g !! i = Some tc -> quote g !! i = Some qc ->
    accents [tc] = accents [qc].

(** The [for i in range(len(self.quote))] loop of [is_complete]. *)
Fixpoint is_complete_loop (g : Game) (idxs : list Z) : result bool :=
  match idxs with
  | [] => Ok true
  | i :: rest =>
      tc ← getitem (typed_text g) i;
      qc ← getitem (quote g) i;
      let typed_char := accents [tc] in
      let quote_char := accents [qc] in
      if bool_decide (typed_char ≠ quote_char) then Ok false
      else is_complete_loop g rest
  end.

(** [TyperacerGame.is_complete] *)
Definition is_complete (g : Game) : result bool :=
  if bool_decide (len (typed_text g) ≠ len (quote g)) then Ok false
  else is_complete_loop g (py_range (len (quote g))).

(** The error tracking of a printable key, after the character was
    appended: the new value of [game.errors]. *)
Definition track_errors (g : Game) : result Z :=
  let current_pos := len (typed_text g) - 1 in
  if current_pos <? len (quote g) then
    tc ← getitem (typed_text g) current_pos;
    qc ← getitem (quote g) current_pos;
    let typed_normalized := accents [tc] in
    let quote_normalized := accents [qc] in
    if bool_decide (typed_normalized ≠ quote_normalized)
    then Ok (errors g + 1)
    else Ok (errors g)
  else Ok (errors g).

(** One iteration of the inner loop of [main_curses] on the key [ch];
    [now] is what [time.time()] returns if the iteration reads the clock to
    start the timer.  This is the [if]/[elif] chain under [# Handle input];
    the refresh of the display that follows it reads the game and never
    writes it, and is left out. *)
Definition handle_key (ch : Z) (now : pyfloat) (g : Game) : outcome :=
  if bool_decide (ch ∈ [KEY_BACKSPACE; 127; 8]) then
    if bool_decide (len (typed_text g) > 0)
    then Continue (set_typed_text (drop_last (typed_text g)) g)
    else Continue g
  else if bool_decide (ch = 3) then Raised KeyboardInterrupt
  else if bool_decide (ch = 24) then
    Break (match start_time g with
           | None => set_start_time (Some now) g
           | Some _ => g
           end)
  else if bool_decide (32 ≤ ch ≤ 126) then
    let g1 := match start_time g with
              | None => set_start_time (Some now) g
              | Some _ => g
              end in
    let char_to_add := normalize_text [Z.to_N ch] in
    let g2 := set_typed_text (typed_text g1 ++ char_to_add) g1 in
    match track_errors g2 with
    | Ok e => Continue (set_errors e g2)
    | Raise x => Raised x
    end
  else Continue g.

(** The inner [while not game.is_complete()] loop, fed the keys [getch]
    returns, each with the clock reading of its iteration. *)
Fixpoint typing_loop (keys : list (Z * pyfloat)) (g : Game)
  : round_end * Game :=
  match is_complete g with
  | Raise e => (Interrupted e, g)
  | Ok true => (Completed, g)
  | Ok false =>
      match keys with
      | [] => (Waiting, g)
      | (ch, now) :: rest =>
          match handle_key ch now g with
          | Continue g' => typing_loop rest g'
          | Break g' => (Shortcut, g')
          | Raised e => (Interrupted e, g)
          end
      end
  end.

(** [TyperacerGame.calculate_wpm]; [now] is the value [time.time()]
    returns inside it. *)
Definition calculate_wpm (now : pyfloat) (g : Game) : result pyfloat :=
  if not_time (start_time g) || bool_decide (len (typed_text g) = 0)
  then Ok 0%float
  else
    match start_time g with
    | None => Ok 0%float
    | Some started =>
        let elapsed_time := (now - started)%float in
        if (elapsed_time =? 0)%float then Ok 0%float
        else
          minutes ← float_div_int elapsed_time 60;
          words ← int_truediv (len (typed_text g)) 5;
          wpm ← float_div words minutes;
          Ok (py_round wpm 1)
    end.

(** The block of [main_curses] after the typing loop, up to the tier:
    [t_end] is the clock reading stored in [game.end_time], [t_wpm] the later
    reading that [calculate_wpm] takes. *)
Definition finish_round (t_end t_wpm : pyfloat) (g : Game)
  : result (Game * RoundSummary) :=
  let g' := set_end_time (Some t_end) g in
  '(wpm, elapsed) ←
    match start_time g' with
    | None => Ok (0%float, 0%float)
    | Some started =>
        w ← calculate_wpm t_wpm g';
        Ok (w, (t_end - started)%float)
    end;
  Ok (g', mkSummary wpm elapsed (calculate_tier wpm (errors g'))).
End Engine.

(** ** The statistics log *)

(** A row of the CSV file, as [csv.reader] yields it and [csv.writer] takes
    it: the list of its fields. *)
Abbreviation csv_row := (list (list N)).

(** [typing_stats.csv] on disk: absent, present with content that [open] or
    the [csv] module fail to read (raising [e]), or a readable sequence of
    rows. *)
Inductive stats_file : Type :=
  | Missing
  | Unreadable (e : exn)
  | Rows (rows : list csv_row).

(** A value of a [csv.DictReader] row: a field, [None] (the [restval] of a
    short row) or the list of surplus fields (stored under the [restkey]
    [None]). *)
Inductive cell : Type :=
  | CStr (s : pystr)
  | CNone
  | CList (l : list pystr).

(** A [csv.DictReader] row: a [dict] whose keys are field names or [None]. *)
Abbreviation dict_row := (gmap (option (list N)) cell).

(** [dict(zip(fieldnames, row))] completed as [DictReader.__next__] does. *)
Definition dict_reader_row (fieldnames row : csv_row) : dict_row :=
  let d := foldl (fun d kv => <[Some kv.1 := CStr kv.2]> d) ∅
                 (zip fieldnames row) in
  let lf := length fieldnames in
  let lr := length row in
  if (lf <? lr)%nat then <[None := CList (drop lf row)]> d
  else if (lr <? lf)%nat
       then foldl (fun d key => <[Some key := CNone]> d) d (drop lr fieldnames)
       else d.

(** [list(csv.DictReader(f))]: the first row gives the field names, blank
    rows are skipped. *)
Definition dict_reader (rows : list csv_row) : list dict_row :=
  match rows with
  | [] => []
  | fieldnames :: data =>
      map (dict_reader_row fieldnames) (filter (fun r => r ≠ []) data)
  end.

(** [row[key]] *)
Definition dict_getitem (row : dict_row) (key : pystr) : result cell :=
  match row !! Some key with
  | Some c => Ok c
  | None => Raise KeyError
  end.

(** [row.get(key, dflt)] *)
Definition dict_get (row : dict_row) (key : pystr) (dflt : cell) : cell :=
  default dflt (row !! Some key).

(** The key a value makes in a [dict]: a list is unhashable. *)
Definition hash_key (c : cell) : result (option pystr) :=
  match c with
  | CStr s => Ok (Some s)
  | CNone => Ok None
  | CList _ => Raise TypeError
  end.

(** [max(l)] on floats: the first element, replaced by each later one that
    compares greater. *)
Definition py_max (l : list pyfloat) : result pyfloat :=
  match l with
  | [] => Raise ValueError
  | x :: rest => Ok (foldl (fun m y => if (m <? y)%float then y else m) x rest)
  end.

(** What [get_historical_stats] returns when there is data. *)
Record HistoricalStats : Type := mkStats {
  total_rounds : Z;
  avg_wpm : pyfloat;
  recent_avg_wpm : pyfloat;
  best_wpm : pyfloat;
  tier_counts : gmap (option pystr) Z
}.

(** The key of a tier in [RewardConfig.TIERS], as written to the log. *)
Definition tier_key (t : Tier) : pystr :=
  match t with
  | pristine => py "pristine"
  | exceptional => py "exceptional"
  | adequate => py "adequate"
  | disaster => py "disaster"
  end.

(** The header [initialize_stats_file] writes. *)
Definition stats_header : csv_row :=
  [py "timestamp"; py "date"; py "time"; py "wpm"; py "accuracy";
   py "errors"; py "duration_seconds"; py "tier"].

(** [TyperacerGame.initialize_stats_file] *)
Definition initialize_stats_file (f : stats_file) : stats_file :=
  match f with
  | Missing => Rows [stats_header]
  | _ => f
  end.

(** The decimal digits of a numeral, most significant first. *)
Fixpoint uint_str (d : Decimal.uint) : pystr :=
  match d with
  | Decimal.Nil => []
  | Decimal.D0 d => 48%N :: uint_str d
  | Decimal.D1 d => 49%N :: uint_str d
  | Decimal.D2 d => 50%N :: uint_str d
  | Decimal.D3 d => 51%N :: uint_str d
  | Decimal.D4 d => 52%N :: uint_str d
  | Decimal.D5 d => 53%N :: uint_str d
  | Decimal.D6 d => 54%N :: uint_str d
  | Decimal.D7 d => 55%N :: uint_str d
  | Decimal.D8 d => 56%N :: uint_str d
  | Decimal.D9 d => 57%N :: uint_str d
  end.

(** [str(n)] for an int. *)
Definition str_of_int (n : Z) : pystr :=
  if n <? 0 then 45%N :: uint_str (N.to_uint (Z.to_N (- n)))
  else uint_str (N.to_uint (Z.to_N n)).

(** [datetime.now()] as [save_stats] formats it. *)
Record Stamp : Type := mkStamp {
  isoformat : pystr;
  date_str : pystr;
  time_str : pystr
}.

Section Stats.
(** The builtins [round(x, ndigits)] and [sum] on floats. *)
Variable py_round : pyfloat -> Z -> pyfloat.
Variable py_sum : list pyfloat -> pyfloat.
(** The text [csv.writer] writes for a float ([str]), and the builtin [float]
    on a [str] ([None]: it raises [ValueError]). *)
Variable str_of_float : pyfloat -> pystr.
Variable float_of_str : pystr -> option pyfloat.

(** [float(c)] *)
Definition py_float (c : cell) : result pyfloat :=
  match c with
  | CStr s =>
      match float_of_str s with
      | Some x => Ok x
      | None => Raise ValueError
      end
  | CNone | CList _ => Raise TypeError
  end.

(** The row [save_stats] writes for the game [g]. *)
Definition stats_row (now : Stamp) (wpm elapsed_time : pyfloat) (t : Tier)
    (g : Game) : csv_row :=
  [isoformat now; date_str now; time_str now;
   str_of_float wpm;
   str_of_float 100%float;
   str_of_int (errors g);
   str_of_float (py_round elapsed_time 2);
   tier_key t].

(** [TyperacerGame.save_stats]: the file is opened for appending, which
    creates it when it is absent; appending to unreadable content leaves it
    unreadable. *)
Definition save_stats (now : Stamp) (wpm elapsed_time : pyfloat) (t : Tier)
    (g : Game) (f : stats_file) : stats_file :=
  match f with
  | Missing => Rows [stats_row now wpm elapsed_time t g]
  | Unreadable e => Unreadable e
  | Rows rows => Rows (rows ++ [stats_row now wpm elapsed_time t g])
  end.

(** [float(row['wpm'])] *)
Definition read_wpm (row : dict_row) : result pyfloat :=
  c ← dict_getitem row (py "wpm");
  py_float c.

(** [[float(row['wpm']) for row in rows]] *)
Fixpoint wpm_column (rows : list dict_row) : result (list pyfloat) :=
  match rows with
  | [] => Ok []
  | row :: rest =>
      x ← read_wpm row;
      xs ← wpm_column rest;
      Ok (x :: xs)
  end.

(** The loop that counts the tiers into [tier_counts]. *)
Fixpoint count_tiers (rows : list dict_row) (tier_counts : gmap (option pystr) Z)
  : result (gmap (option pystr) Z) :=
  match rows with
  | [] => Ok tier_counts
  | row :: rest =>
      let tier := dict_get row (py "tier") (CStr (py "unknown")) in
      k ← hash_key tier;
      count_tiers rest (<[k := default 0 (tier_counts !! k) + 1]> tier_counts)
  end.

(** [wpms[-5:] if len(wpms) > 5 else wpms] *)
Definition recent_of (wpms : list pyfloat) : list pyfloat :=
  if bool_decide (len wpms > 5) then drop (length wpms - 5)%nat wpms
  else wpms.

(** The body of the [try] of [get_historical_stats], once the rows are
    read. *)
Definition historical_stats_of (raw : list csv_row)
  : result (option HistoricalStats) :=
  let rows := dict_reader raw in
  if bool_decide (len rows = 0) then Ok None
  else
    wpms ← wpm_column rows;
    let recent_wpms := recent_of wpms in
    counts ← count_tiers rows ∅;
    avg ← float_div_int (py_sum wpms) (len wpms);
    recent_avg ← float_div_int (py_sum recent_wpms) (len recent_wpms);
    best ← py_max wpms;
    Ok (Some (mkStats (len rows) (py_round avg 1) (py_round recent_avg 1)
                      (py_round best 1) counts)).

(** [TyperacerGame.get_historical_stats] *)
Definition get_historical_stats (f : stats_file) : option HistoricalStats :=
  match f with
  | Missing => None
  | Unreadable e => try_except (Raise e) None
  | Rows raw => try_except (historical_stats_of raw) None
  end.

(** One call of [save_stats]: its arguments and the game it reads
    [self.errors] from. *)
Record SessionRecord : Type := mkRecord {
  rec_now : Stamp;
  rec_wpm : pyfloat;
  rec_elapsed : pyfloat;
  rec_tier : Tier;
  rec_game : Game
}.

(** The log after the calls [rs] of [save_stats], in order. *)
Definition append_all (rs : list SessionRecord) (f : stats_file) : stats_file :=
  foldl (fun f r => save_stats (rec_now r) (rec_wpm r) (rec_elapsed r)
                      (rec_tier r) (rec_game r) f) f rs.
End Stats.

(** ** Reference instances of the runtime parameters

    Concrete stand-ins for the parameters above, used to evaluate the model
    on examples.  Each is exact on the inputs it is used on, as its comment
    says. *)

Module UnicodeSample.
(** The entries of the Unicode character database (14.0) for the characters
    of the examples; every other code point is treated as a starter without
    decomposition.
    - U+00E9 and U+00F6 decompose to e + U+0301 and o + U+0308;
    - U+0301, U+0308: category Mn, combining class 230;
    - U+034F (combining grapheme joiner): category Mn, combining class 0;
    - U+1D165, U+1D16D (musical stem, augmentation dot): category Mc,
      combining classes 216 and 226. *)
Definition combining (c : codepoint) : N :=
  (if (c =? 0x301) || (c =? 0x308) then 230
   else if c =? 0x1D165 then 216
   else if c =? 0x1D16D then 226
   else 0)%N.

Definition decomposition (c : codepoint) : pystr :=
  (if c =? 0xE9 then [0x65; 0x301]
   else if c =? 0xF6 then [0x6F; 0x308]
   else [c])%N.

Definition is_Mn (c : codepoint) : bool :=
  ((c =? 0x301) || (c =? 0x308) || (c =? 0x34F))%N.
End UnicodeSample.

Module FloatSample.
(** [a / b] rounded to the nearest integer, ties to even ([b > 0]). *)
Definition div_half_even (a b : Z) : Z :=
  let q := a / b in
  let r := a mod b in
  if 2 * r <? b then q
  else if b <? 2 * r then q + 1
  else if Z.even q then q else q + 1.

(** The sign of a finite [x] and [|x| * 10^ndigits] rounded half-even to an
    integer, computed on the exact value of [x]. *)
Definition scaled (x : pyfloat) (ndigits : Z) : option (bool * Z) :=
  match Prim2SF x with
  | S754_zero s => Some (s, 0)
  | S754_finite s m e =>
      Some (s, if 0 <=? e then Z.pos m * 2 ^ e * 10 ^ ndigits
               else div_half_even (Z.pos m * 10 ^ ndigits) (2 ^ (- e)))
  | _ => None
  end.

(** [round(x, ndigits)] for [ndigits >= 0]: the float nearest to the decimal
    that rounds the exact value of [x] half-even.  Exact when
    [|x| * 10^ndigits < 2^53]. *)
Definition round_half_even (x : pyfloat) (ndigits : Z) : pyfloat :=
  match Prim2SF x with
  | S754_finite _ _ e =>
      if 0 <=? e then x
      else match scaled x ndigits with
           | Some (s, n) =>
               let r := (float_of_int n / float_of_int (10 ^ ndigits))%float in
               if s then (- r)%float else r
           | None => x
           end
  | _ => x
  end.

(** [sum] on floats by plain left-to-right addition from 0: exact, and so
    equal to what any version of [sum] returns, when every partial sum is
    representable. *)
Definition sum_left (l : list pyfloat) : pyfloat :=
  foldl PrimFloat.add 0%float l.

Definition digit_of (c : codepoint) : option Z :=
  if ((48 <=? c) && (c <=? 57))%N then Some (Z.of_N c - 48) else None.

Fixpoint digits_value (acc : Z) (s : pystr) : option Z :=
  match s with
  | [] => Some acc
  | c :: rest => d ← digit_of c; digits_value (10 * acc + d) rest
  end.

(** Splits at the first full stop (U+002E). *)
Fixpoint split_dot (s : pystr) : pystr * option pystr :=
  match s with
  | [] => ([], None)
  | c :: rest =>
      if (c =? 46)%N then ([], Some rest)
      else let '(a, b) := split_dot rest in (c :: a, b)
  end.

(** [float(s)] on fixed-point decimal text (an optional minus sign, digits,
    an optional full stop and digits): the float nearest to the decimal.
    Exact for up to 15 significant digits; it answers [None] on any other
    text, among them the texts that [float] rejects with [ValueError]
    because they hold no number at all. *)
Definition float_of_decimal (s : pystr) : option pyfloat :=
  let '(neg, body) := match s with
                      | 45%N :: rest => (true, rest)
                      | _ => (false, s)
                      end in
  let '(ip, fp) := split_dot body in
  let fp := default [] fp in
  if bool_decide (ip = []) || (15 <? length (ip ++ fp))%nat then None
  else
    n ← digits_value 0 (ip ++ fp);
    let r := (float_of_int n / float_of_int (10 ^ len fp))%float in
    Some (if neg then (- r)%float else r).

(** The fixed-point text of [x] with [ndigits] decimals. *)
Definition fixed_text (x : pyfloat) (ndigits : Z) : option pystr :=
  match scaled x ndigits with
  | None => None
  | Some (s, n) =>
      let ip := str_of_int (n / 10 ^ ndigits) in
      let fp := str_of_int (n mod 10 ^ ndigits) in
      let pad := replicate (Z.to_nat ndigits - length fp)%nat 48%N in
      let sign : pystr := if s : bool then [45%N] else [] in
      Some (sign ++ ip ++ [46%N] ++ pad ++ fp)
  end.

(** The shortest fixed-point text with [1 .. 1 + fuel] decimals that reads
    back as [x]. *)
Fixpoint shortest_text (fuel : nat) (ndigits : Z) (x : pyfloat) : option pystr :=
  match fixed_text x ndigits with
  | None => None
  | Some t =>
      if match float_of_decimal t with
         | Some y => PrimFloat.Leibniz.eqb y x
         | None => false
         end
      then Some t
      else match fuel with
           | O => None
           | S fuel' => shortest_text fuel' (ndigits + 1) x
           end
  end.

(** [str(x)] for a float, in the range where Python writes fixed-point
    text: the shortest decimal that reads back as [x].  Outside that range
    (and for infinities and NaN) the text is a placeholder. *)
Definition str_of_float (x : pyfloat) : pystr :=
  default (py "?") (shortest_text 12 1 x).
End FloatSample.

(** ** Sample data *)

(** The word cafe, with U+00E9 for its last letter and a curly apostrophe
    after it. *)
Definition cafe : pystr := [0x63; 0x61; 0x66; 0xE9; 0x2019]%N.

(** A round on the quote "ab" before any key. *)
Definition fresh_game : Game := reset_for_new_round (py "ab").

(** The same round after "xy" was typed, with both characters wrong. *)
Definition full_game : Game :=
  mkGame (py "ab") (py "xy") (Some 1000%float) None 2.

(** A round on the quote "hello" typed in full, started at clock reading
    1000. *)
Definition hello_game : Game :=
  mkGame (py "hello") (py "hello") (Some 1000%float) None 0.

(** The same round with a clock that started at the smallest positive
    float, and with one that started at 0.0. *)
Definition tiny_clock_game : Game :=
  set_start_time (Some 0x1p-1074%float) hello_game.

Definition zero_clock_game : Game :=
  set_start_time (Some 0%float) hello_game.

Definition sample_stamp : Stamp :=
  mkStamp (py "2024-05-01T10:00:00") (py "2024-05-01") (py "10:00:00").

(** Two calls of [save_stats], for rounds of 60.0 and 60.5 words per
    minute. *)
Definition sample_records : list SessionRecord :=
  [mkRecord sample_stamp 60 60 disaster hello_game;
   mkRecord sample_stamp 60.5 59.5 disaster hello_game].

(** A log whose only data row has the text [fast] in its [wpm] field. *)
Definition broken_log : stats_file :=
  Rows [stats_header;
        [py "2024-05-01T10:00:00"; py "2024-05-01"; py "10:00:00"; py "fast";
         py "100.0"; py "0"; py "12.5"; py "disaster"]].

(** A round on the quote "caf" + U+00E9 with the plain letters "cafe"
    typed. *)
Definition accent_game : Game :=
  mkGame [0x63; 0x61; 0x66; 0xE9]%N (py "cafe") (Some 1000%float) None 0.

(** The keys x, backspace, a, b, pressed at clock readings 1000 to 1003. *)
Definition corrected_keys : list (Z * pyfloat) :=
  [(120, 1000%float); (127, 1001%float); (97, 1002%float); (98, 1003%float)].

(** ** Further sample data and vocabulary for the properties below *)

(** The code points that [quote_normalization_table] replaces. *)
Definition curly_quotes : list codepoint :=
  [0x201C; 0x201D; 0x2018; 0x2019]%N.

(** The characters the printable-key branch of [main_curses] accepts. *)
Definition printable (c : codepoint) : Prop := (32 ≤ c ≤ 126)%N.

(** The keys that type the text [s], pressed at the clock readings
    [times]. *)
Definition keys_of (s : pystr) (times : list pyfloat) : list (Z * pyfloat) :=
  zip (Z.of_N <$> s) times.

(** A round on a quote that holds an em dash (U+2014), which no key
    types. *)
Definition dash_game : Game := reset_for_new_round [0x61; 0x2014; 0x62]%N.

#[global] Instance exn_eq_dec : EqDecision exn.
Proof. solve_decision. Defined.

#[global] Instance result_eq_dec {A} `{EqDecision A} : EqDecision (result A).
Proof. solve_decision. Defined.

(** The key under which [get_historical_stats] counts a row:
    [row.get('tier', 'unknown')] as a [dict] key. *)
Definition tier_of (row : dict_row) : result (option pystr) :=
  hash_key (dict_get row (py "tier") (CStr (py "unknown"))).

(** The number of rows counted under the key [k]. *)
Definition rows_with_tier (k : option pystr) (rows : list dict_row) : Z :=
  len (filter (fun row => tier_of row = Ok k) rows).

(** ** Python runtime: slices, whitespace, splitting and joining *)

(** The position a slice bound [b] denotes in a sequence of length [n]:
    [dflt] when the bound is omitted, counted from the end when negative,
    and clamped to [0 .. n]. *)
Definition slice_bound (n dflt : Z) (b : option Z) : Z :=
  match b with
  | None => dflt
  | Some i => if i <? 0 then Z.max (i + n) 0 else Z.min i n
  end.

(** [s[start:stop]] *)
Definition py_slice {A} (s : list A) (start stop : option Z) : list A :=
  let lo := slice_bound (len s) 0 start in
  let hi := slice_bound (len s) (len s) stop in
  take (Z.to_nat (hi - lo)) (drop (Z.to_nat lo) s).

(** [c.isspace()]: the 29 whitespace code points of Unicode. *)
Definition isspace (c : codepoint) : bool :=
  ((9 <=? c) && (c <=? 13) || (0x1C <=? c) && (c <=? 0x20)
   || (c =? 0x85) || (c =? 0xA0) || (c =? 0x1680)
   || (0x2000 <=? c) && (c <=? 0x200A)
   || (c =? 0x2028) || (c =? 0x2029) || (c =? 0x202F) || (c =? 0x205F)
   || (c =? 0x3000))%N.

(** [s.lstrip()], [s.rstrip()], [s.strip()] *)
Fixpoint lstrip (s : pystr) : pystr :=
  match s with
  | [] => []
  | c :: rest => if isspace c then lstrip rest else s
  end.

Definition rstrip (s : pystr) : pystr := reverse (lstrip (reverse s)).

Definition strip (s : pystr) : pystr := rstrip (lstrip s).

(** [s.split(sep)] for a separator of one character: the pieces between the
    separators, empty pieces included; never the empty list. *)
Fixpoint split_on (sep : codepoint) (s : pystr) : list pystr :=
  match s with
  | [] => [[]]
  | c :: rest =>
      if (c =? sep)%N then [] :: split_on sep rest
      else match split_on sep rest with
           | w :: ws => (c :: w) :: ws
           | [] => [[c]]
           end
  end.

(** [sep.join(l)] *)
Fixpoint join (sep : pystr) (l : list pystr) : pystr :=
  match l with
  | [] => []
  | x :: rest =>
      match rest with
      | [] => x
      | _ :: _ => x ++ sep ++ join sep rest
      end
  end.

(** ** Wrapping and centring text ([CursesUI]) *)

(** The loop [while len(word) > width] of [wrap_text_preserve_chars], which
    cuts pieces of [width] characters off a long word; [None] when the loop
    is still running after [fuel] rounds (it never ends for [width <= 0]). *)
Fixpoint break_word (fuel : nat) (width : Z) (lines : list pystr)
    (word : pystr) : option (list pystr * pystr) :=
  if bool_decide (len word > width) then
    match fuel with
    | O => None
    | S fuel' =>
        break_word fuel' width (lines ++ [py_slice word None (Some width)])
          (py_slice word (Some width) None)
    end
  else Some (lines, word).

(** The block [if len(word) <= width: ... else: ...] that starts a line with
    [word]; it returns the lines and the new current line. *)
Definition start_line (fuel : nat) (width : Z) (lines : list pystr)
    (word : pystr) : option (list pystr * pystr) :=
  if bool_decide (len word ≤ width) then Some (lines, word)
  else break_word fuel width lines word.

(** The body of the loop over the words. *)
Definition wrap_word (fuel : nat) (width : Z) (st : list pystr * pystr)
    (word : pystr) : option (list pystr * pystr) :=
  let '(lines, current_line) := st in
  if bool_decide (current_line = []) then start_line fuel width lines word
  else
    let test_line := current_line ++ [32%N] ++ word in
    if bool_decide (len test_line ≤ width) then Some (lines, test_line)
    else start_line fuel width (lines ++ [current_line]) word.

Fixpoint wrap_words (fuel : nat) (width : Z) (st : list pystr * pystr)
    (words : list pystr) : option (list pystr * pystr) :=
  match words with
  | [] => Some st
  | word :: rest =>
      st' ← wrap_word fuel width st word;
      wrap_words fuel width st' rest
  end.

(** [CursesUI.wrap_text_preserve_chars] *)
Definition wrap_text_preserve_chars (fuel : nat) (text : pystr) (width : Z)
  : option (list pystr) :=
  if bool_decide (text = []) then Some []
  else
    st ← wrap_words fuel width ([], []) (split_on 32 text);
    Some (if bool_decide (st.2 ≠ []) then st.1 ++ [st.2] else st.1).

(** [CursesUI.center_text] on a window of [height] rows and [width]
    columns: the call [addstr(y, x, text)] it makes, if it makes one (an
    error of [addstr] is caught and ignored). *)
Definition center_text (height width y : Z) (text : pystr)
  : option (Z * Z * pystr) :=
  if bool_decide (y >= height \/ y < 0) then None
  else
    let x := Z.max 0 ((width - len text) `div` 2) in
    Some (y, x, py_slice text None (Some width)).

(** ** Regular expressions, as far as the program uses them

    The patterns the program searches for are sequences of items, each a set
    of characters with a quantifier (one, [*] or [+]), with one capture
    group around a single item.  [re.search] tries the start positions from
    left to right; at each, the quantifiers are greedy and give characters
    back only when the rest of the pattern fails. *)

Inductive quantifier : Type :=
  | Once
  | ZeroOrMore
  | OneOrMore.

Record atom : Type := mkAtom {
  accepts : codepoint -> bool;
  quant : quantifier
}.

(** A literal character, and a literal text. *)
Definition lit (c : codepoint) : atom := mkAtom (N.eqb c) Once.
Definition lits (s : pystr) : list atom := lit <$> s.

(** Puts the character [c] in front of the first piece of a match. *)
Definition grow (c : codepoint) (m : option (list pystr))
  : option (list pystr) :=
  match m with
  | Some (p :: ps) => Some ((c :: p) :: ps)
  | _ => None
  end.

(** A greedy [*] item followed by the rest of the pattern, which [k]
    matches: one more character is tried first, and given back if what
    follows fails. *)
Fixpoint re_star (p : codepoint -> bool)
    (k : pystr -> option (list pystr)) (s : pystr) : option (list pystr) :=
  let stop := cons [] <$> k s in
  match s with
  | c :: s' =>
      if p c
      then match grow c (re_star p k s') with
           | Some m => Some m
           | None => stop
           end
      else stop
  | [] => stop
  end.

(** A match of the pattern [r] at the start of [s]: the text each item of
    the pattern matched, in the order of the items. *)
Fixpoint re_match (r : list atom) (s : pystr) : option (list pystr) :=
  match r with
  | [] => Some []
  | a :: r' =>
      match quant a with
      | Once =>
          match s with
          | c :: s' =>
              if accepts a c then cons [c] <$> re_match r' s' else None
          | [] => None
          end
      | ZeroOrMore => re_star (accepts a) (re_match r') s
      | OneOrMore =>
          match s with
          | c :: s' =>
              if accepts a c
              then grow c (re_star (accepts a) (re_match r') s')
              else None
          | [] => None
          end
      end
  end.

(** [re.search]: the first position from the left at which the pattern
    matches. *)
Fixpoint re_search (r : list atom) (s : pystr) : option (list pystr) :=
  match re_match r s with
  | Some m => Some m
  | None =>
      match s with
      | [] => None
      | _ :: s' => re_search r s'
      end
  end.

(** [r'\[\[BOOK:\s*([^\]]+)\]\]'] and [r'\[\[AUTHOR:\s*([^\]]+)\]\]']; the
    group is the item after the [\s*]. *)
Definition tag_pattern (tag : pystr) : list atom :=
  lits ([91; 91]%N ++ tag ++ [58%N])
  ++ [mkAtom isspace ZeroOrMore;
      mkAtom (fun c => negb (c =? 93)%N) OneOrMore]
  ++ lits [93; 93]%N.

(** [match.group(1)] for a match of [tag_pattern tag]. *)
Definition tag_group (tag : pystr) (m : list pystr) : pystr :=
  default [] (m !! (length tag + 4)%nat).

(** ** Quote files *)

(** The separator [" · "] (U+00B7 between two spaces). *)
Definition middle_dot : pystr := [32; 0xB7; 32]%N.

(** [TyperacerGame.parse_metadata] *)
Definition parse_metadata (lines : list pystr) : pystr :=
  if bool_decide (len lines < 2) then []
  else
    match getitem lines 1 with
    | Raise _ => []
    | Ok line =>
        let metadata_line := strip line in
        if bool_decide (metadata_line = []) then []
        else
          let parts : list pystr := [] in
          let parts :=
            match re_search (tag_pattern (py "BOOK")) metadata_line with
            | Some book_match =>
                parts ++ [strip (tag_group (py "BOOK") book_match)]
            | None => parts
            end in
          let parts :=
            match re_search (tag_pattern (py "AUTHOR")) metadata_line with
            | Some author_match =>
                parts ++ [strip (tag_group (py "AUTHOR") author_match)]
            | None => parts
            end in
          if bool_decide (parts ≠ []) then join middle_dot parts else []
    end.


(** [BookMetadata] of [fetcher.py]. *)
Record BookMetadata : Type := mkMetadata {
  title : pystr;
  author : pystr
}.

(** [BookMetadata.format_metadata_line] *)
Definition format_metadata_line (m : BookMetadata) : pystr :=
  py "[[BOOK: " ++ title m ++ py "]][[AUTHOR: " ++ author m ++ py "]]".

(** The text the two [f.write] calls of [save_quote_immediately] put in the
    quote file. *)
Definition quote_file_text (quote : pystr) (m : BookMetadata) : pystr :=
  (quote ++ [10%N]) ++ (format_metadata_line m ++ [10%N]).

(** [QuoteExtractor.trim_book_content], for the extractor's
    [skip_start_chars] and [skip_end_chars]. *)
Definition trim_book_content (skip_start_chars skip_end_chars : Z)
    (text : pystr) : pystr :=
  if bool_decide (len text < skip_start_chars + skip_end_chars) then
    if bool_decide (len text > skip_start_chars)
    then py_slice text (Some skip_start_chars) None
    else text
  else py_slice text (Some skip_start_chars) (Some (- skip_end_chars)).

(** ** Drawing the quote ([CursesUI.render_quote]) *)

(** The three ways a character of the quote is drawn: green (typed, and
    equal after folding), bold red (typed, and different), dim white (not
    typed yet). *)
Inductive char_style : Type :=
  | Correct
  | Incorrect
  | Untyped.

(** One call [addstr(y, x, quote_char, style)]. *)
Record draw : Type := mkDraw {
  draw_y : Z;
  draw_x : Z;
  draw_char : codepoint;
  draw_style : char_style
}.

Section Render.
Variable combining : codepoint -> N.
Variable decomposition : codepoint -> pystr.
Variable is_Mn : codepoint -> bool.

Local Abbreviation accents := (normalize_accents combining decomposition is_Mn).

(** The style of the character at [char_index]. *)
Definition style_at (g : Game) (char_index : Z) (quote_char : codepoint)
  : result char_style :=
  if bool_decide (char_index < len (typed_text g)) then
    tc ← getitem (typed_text g) char_index;
    let typed_normalized := accents [tc] in
    let quote_normalized := accents [quote_char] in
    Ok (if bool_decide (typed_normalized = quote_normalized)
        then Correct else Incorrect)
  else Ok Untyped.

(** The loop [for j in range(len(line))] of [render_quote] on row [y]: the
    [addstr] calls it makes (an error of [addstr] is caught and ignored) and
    the value of [char_index] it ends with. *)
Fixpoint render_line (g : Game) (width y start_x : Z) (js : list Z)
    (char_index : Z) : result (Z * list draw) :=
  match js with
  | [] => Ok (char_index, [])
  | j :: rest =>
      if bool_decide (char_index >= len (quote g)) then Ok (char_index, [])
      else
        let x := start_x + j in
        if bool_decide (x >= width) then Ok (char_index, [])
        else
          quote_char ← getitem (quote g) char_index;
          style ← style_at g char_index quote_char;
          r ← render_line g width y start_x rest (char_index + 1);
          Ok (r.1, mkDraw y x quote_char style :: r.2)
  end.

(** The loop over the lines, from line number [i] on; [n] is
    [len(quote_lines)]. *)
Fixpoint render_lines (g : Game) (height width start_y n : Z) (i : Z)
    (lines : list pystr) (char_index : Z) : result (list draw) :=
  match lines with
  | [] => Ok []
  | line :: rest =>
      let y := start_y + i in
      if bool_decide (y >= height) then Ok []
      else
        let start_x := Z.max 0 ((width - len line) `div` 2) in
        r ← render_line g width y start_x (py_range (len line)) char_index;
        char_index' ←
          (if bool_decide (i < n - 1 /\ r.1 < len (quote g)) then
             c ← getitem (quote g) r.1;
             Ok (if bool_decide (c = 32%N) then r.1 + 1 else r.1)
           else Ok r.1);
        ds ← render_lines g height width start_y n (i + 1) rest char_index';
        Ok (r.2 ++ ds)
  end.

(** [CursesUI.render_quote] on a window of [height] rows and [width]
    columns. *)
Definition render_quote (g : Game) (height width start_y : Z)
    (quote_lines : list pystr) : result (list draw) :=
  render_lines g height width start_y (len quote_lines) 0 quote_lines 0.
End Render.

(** ** The game screen ([CursesUI.render_game_screen]) *)

(** What [render_game_screen] puts on the cleared window: the call of
    [addstr] for the words-per-minute line, if there is one, the cells of
    the quote, and the call for the metadata line, if there is one. *)
Record Screen : Type := mkScreen {
  wpm_line : option (Z * Z * pystr);
  quote_cells : list draw;
  metadata_line : option (Z * Z * pystr)
}.

Section GameScreen.
Variable combining : codepoint -> N.
Variable decomposition : codepoint -> pystr.
Variable is_Mn : codepoint -> bool.
Variable py_round : pyfloat -> Z -> pyfloat.
Variable str_of_float : pyfloat -> pystr.

(** [CursesUI.render_game_screen] on a window of [height] rows and [width]
    columns; [quote_metadata] is [game.quote_metadata], [now] the clock
    reading inside [calculate_wpm].  [None]: the bound [fuel] on the inner
    loop of the wrapping was too small. *)
Definition render_game_screen (fuel : nat) (now : pyfloat) (g : Game)
    (quote_metadata : pystr) (height width : Z) : option (result Screen) :=
  let wrap_width := Z.max 10 (width - 10) in
  match wrap_text_preserve_chars fuel (quote g) wrap_width with
  | None => None
  | Some quote_lines =>
      let num_quote_lines := len quote_lines in
      let block_height := num_quote_lines + 4 in
      let start_y := Z.max 0 ((height - block_height) `div` 2) in
      Some (
        wpm ← calculate_wpm py_round now g;
        let top :=
          if (0 <? wpm)%float
          then center_text height width start_y (str_of_float wpm ++ py " wpm")
          else None in
        cells ← render_quote combining decomposition is_Mn g height width
                  (start_y + 2) quote_lines;
        let bottom :=
          if bool_decide (quote_metadata <> [])
          then center_text height width (start_y + 2 + num_quote_lines + 1)
                 quote_metadata
          else None in
        Ok (mkScreen top cells bottom))
  end.
End GameScreen.

(** ** Numbering the quote files ([fetcher.py]) *)

(** The output directory: the text of each file, by name. *)
Abbreviation directory := (gmap pystr pystr).

(** The names that the pattern [quote_*.txt] of [glob] matches. *)
Definition fnmatch_quote_txt (name : pystr) : bool :=
  bool_decide (take 6 name = py "quote_")
  && (let rest := drop 6 name in
      bool_decide (drop (length rest - 4) rest = py ".txt")).

Definition glob_quote_txt (d : directory) : list pystr :=
  List.filter fnmatch_quote_txt (map_to_list d).*1.

(** [max(numbers)] on a non-empty list of ints. *)
Definition max_of (x : Z) (rest : list Z) : Z := foldl Z.max x rest.

Section QuoteNumbers.
(** The value of a decimal digit (a character of category Nd) in the
    Unicode database of the runtime: [\d] accepts the characters that have
    one, and [int] reads them. *)
Variable digit : codepoint -> option N.

Definition isdigit (c : codepoint) : bool :=
  match digit c with Some _ => true | None => false end.

(** [int(s)] on a text of digits, which is all that [\d+] matches (the
    signs, spaces and underscores that [int] also reads cannot occur);
    anything else raises [ValueError]. *)
Definition int_of_digits (s : pystr) : option Z :=
  foldl (fun acc c => a ← acc; d ← digit c; Some (10 * a + Z.of_N d))
    (Some 0) s.

Definition py_int (s : pystr) : result Z :=
  if bool_decide (s = []) then Raise ValueError
  else match int_of_digits s with
       | Some n => Ok n
       | None => Raise ValueError
       end.

(** [r'quote_(\d+)\.txt'], and [match.group(1)]. *)
Definition number_pattern : list atom :=
  lits (py "quote_") ++ mkAtom isdigit OneOrMore :: lits (py ".txt").

Definition number_group (m : list pystr) : pystr := default [] (m !! 6%nat).

(** The loop of [get_starting_quote_number] over the existing files. *)
Fixpoint collect_numbers (existing : list pystr) : result (list Z) :=
  match existing with
  | [] => Ok []
  | name :: rest =>
      match re_search number_pattern name with
      | Some m =>
          n ← py_int (number_group m);
          numbers ← collect_numbers rest;
          Ok (n :: numbers)
      | None => collect_numbers rest
      end
  end.

(** [get_starting_quote_number]; [None] is a directory that does not
    exist. *)
Definition get_starting_quote_number (output_dir : option directory)
  : result Z :=
  match output_dir with
  | None => Ok 1
  | Some d =>
      let existing := glob_quote_txt d in
      if bool_decide (existing = []) then Ok 1
      else
        numbers ← collect_numbers existing;
        match numbers with
        | x :: rest => Ok (max_of x rest + 1)
        | [] => Ok 1
        end
  end.
End QuoteNumbers.

(** The name [f'quote_{quote_num}.txt']. *)
Definition quote_file_name (quote_num : Z) : pystr :=
  py "quote_" ++ str_of_int quote_num ++ py ".txt".

(** [save_quote_immediately]: the directory is created if it is missing, the
    counter goes up by one, and the file of that number is written.
    [written] tells whether opening and writing the file succeeded; when it
    did not, the error is caught, [False] is returned and, in this model,
    no file is left behind.  It returns the directory, the new [counter[0]]
    and the returned value. *)
Definition save_quote_immediately (written : bool) (quote : pystr)
    (metadata : BookMetadata) (output_dir : option directory) (counter : Z)
  : option directory * Z * bool :=
  let d := default ∅ output_dir in
  let counter := counter + 1 in
  let quote_num := counter in
  let file_path := quote_file_name quote_num in
  if written
  then (Some (<[file_path := quote_file_text quote metadata]> d), counter, true)
  else (Some d, counter, false).

(** The calls of [save_quote_immediately] that [main] makes, one after the
    other on the same counter; each item is a quote, its metadata and
    whether its file could be written. *)
Fixpoint save_quotes (items : list (pystr * BookMetadata * bool))
    (output_dir : option directory) (counter : Z)
  : option directory * Z :=
  match items with
  | [] => (output_dir, counter)
  | (quote, metadata, written) :: rest =>
      let r := save_quote_immediately written quote metadata output_dir
                 counter in
      save_quotes rest r.1.1 r.1.2
  end.

(** The ASCII digits, a fragment of the decimal digits of Unicode. *)
Module DigitSample.
Definition digit (c : codepoint) : option N :=
  if bool_decide (48 <= c <= 57)%N then Some (c - 48)%N else None.
End DigitSample.

(** ** The quality filter of the extractor ([QuoteExtractor.is_valid_quote]) *)

(** [re.search(r'[.!?]$', quote)]: a character of the class at the end of
    the text, or just before a line feed that ends the text. *)
Definition sentence_end (c : codepoint) : bool :=
  bool_decide (c ∈ [46; 33; 63]%N).

Definition ends_sentence (quote : pystr) : bool :=
  match reverse quote with
  | c :: rest =>
      sentence_end c
      || (bool_decide (c = 10%N)
          && match rest with
             | c' :: _ => sentence_end c'
             | [] => false
             end)
  | [] => false
  end.

(** The class [[a-zA-Z]]. *)
Definition ascii_letter (c : codepoint) : bool :=
  bool_decide ((97 <= c <= 122)%N \/ (65 <= c <= 90)%N).

(** [s.count(c)] for a single character. *)
Definition count_char (c : codepoint) (s : pystr) : Z :=
  len (List.filter (N.eqb c) s).

Section QuoteFilter.
Variable digit : codepoint -> option N.

(** [QuoteExtractor.is_valid_quote]; [extracted_quotes] is the set
    [self.extracted_quotes]. *)
Definition is_valid_quote (extracted_quotes : gset pystr) (quote : pystr)
  : result bool :=
  if bool_decide (len quote < 50 \/ len quote > 500) then Ok false
  else if negb (ends_sentence quote) then Ok false
  else if existsb (isdigit digit) quote then Ok false
  else
    alpha_ratio ← int_truediv (len (List.filter ascii_letter quote))
                    (len quote);
    if (alpha_ratio <? 0x1.6666666666666p-1)%float then Ok false
    else if bool_decide (count_char 95 quote > 3 \/ count_char 42 quote > 3)
    then Ok false
    else if bool_decide (quote ∈ extracted_quotes) then Ok false
    else Ok true.
End QuoteFilter.

(** Two sentences of fifty characters, and the same text with an em dash
    (U+2014) in the place of its first space. *)
Definition sample_quote : pystr :=
  py "Call me Ishmael. It was a bright cold day in April.".


(** * Properties *)

(** ** Normalization *)

Section UnicodeFacts.
Variable combining : codepoint -> N.
Variable decomposition : codepoint -> pystr.
Variable is_Mn : codepoint -> bool.

Local Abbreviation order := (canonical_order combining).
Local Abbreviation nfd := (normalize_NFD combining decomposition).
Local Abbreviation accents := (normalize_accents combining decomposition is_Mn).

Lemma insert_mark_elem c l x :
  x ∈ insert_mark combining c l <-> x = c \/ x ∈ l.
Proof.
  induction l as [|d l IH]; simpl.
  - rewrite list_elem_of_singleton, elem_of_nil. tauto.
  - destruct (_ && _); rewrite !elem_of_cons; [rewrite IH|]; tauto.
Qed.

Lemma canonical_order_elem s x : x ∈ order s <-> x ∈ s.
Proof.
  induction s as [|c s IH]; simpl; [done|].
  rewrite insert_mark_elem, IH, elem_of_cons. tauto.
Qed.

(** Canonical ordering leaves a sequence of starters as it is. *)
Lemma canonical_order_starters s :
  Forall (fun c => combining c = 0%N) s -> order s = s.
Proof.
  induction 1 as [|c s Hc Hs IH]; simpl; [done|].
  rewrite IH. destruct Hs as [|d s' Hd _]; simpl; [done|].
  rewrite Hd. done.
Qed.

Lemma flat_map_decomposed s :
  Forall (fun c => decomposition c = [c]) s -> flat_map decomposition s = s.
Proof.
  induction 1 as [|c s Hc _ IH]; simpl; [done|]. by rewrite Hc, IH.
Qed.

Lemma normalize_NFD_decomposed s :
  decomposition_closed decomposition ->
  Forall (fun c => decomposition c = [c]) (nfd s).
Proof.
  intros Hclosed. apply Forall_forall. intros x Hx.
  apply canonical_order_elem, list_elem_of_In, in_flat_map in Hx.
  destruct Hx as (c & _ & Hx). apply list_elem_of_In in Hx. eauto.
Qed.

Lemma filter_all {A} (P : A -> Prop) `{!forall x, Decision (P x)} (l : list A) :
  Forall P l -> filter P l = l.
Proof.
  induction 1 as [|x l Hx _ IH]; [done|].
  by rewrite filter_cons_True, IH.
Qed.

Lemma accents_unmarked s : Forall (fun c => is_Mn c = false) (accents s).
Proof.
  apply Forall_forall. intros x Hx. unfold normalize_accents in Hx.
  by apply list_elem_of_filter in Hx as [? _].
Qed.

(** Folding an already folded text only puts it in canonical order. *)
Lemma normalize_accents_twice s :
  decomposition_closed decomposition ->
  accents (accents s) = order (accents s).
Proof.
  intros Hclosed. unfold normalize_accents at 1. unfold normalize_NFD.
  rewrite (flat_map_decomposed (accents s)).
  - apply filter_all, Forall_forall. intros x Hx.
    rewrite canonical_order_elem in Hx.
    pose proof (accents_unmarked s) as Hu. rewrite Forall_forall in Hu. auto.
  - apply Forall_forall. intros x Hx. unfold normalize_accents in Hx.
    apply list_elem_of_filter in Hx as [_ Hx].
    pose proof (normalize_NFD_decomposed s Hclosed) as Hd.
    rewrite Forall_forall in Hd. auto.
Qed.

Lemma normalize_accents_idempotent s :
  decomposition_closed decomposition ->
  spacing_are_starters combining decomposition is_Mn s ->
  accents (accents s) = accents s.
Proof.
  intros Hclosed Hsp. rewrite normalize_accents_twice by done.
  apply canonical_order_starters, Forall_forall. intros x Hx.
  unfold normalize_accents in Hx.
  apply list_elem_of_filter in Hx as [Hmn Hx].
  unfold spacing_are_starters in Hsp. rewrite Forall_forall in Hsp. auto.
Qed.
End UnicodeFacts.

(** An entry of the quote table is a straight quote, and straight quotes
    have no entry. *)
Lemma quote_table_entry c r :
  quote_normalization_table !! c = Some r -> r = [34%N] \/ r = [39%N].
Proof.
  unfold quote_normalization_table.
  rewrite !lookup_insert, lookup_singleton.
  repeat case_decide; naive_solver.
Qed.

Lemma translate_app table s1 s2 :
  translate table (s1 ++ s2) = translate table s1 ++ translate table s2.
Proof. unfold translate. apply flat_map_app. Qed.

Lemma normalize_text_char c :
  normalize_text (default [c] (quote_normalization_table !! c))
  = default [c] (quote_normalization_table !! c).
Proof.
  destruct (quote_normalization_table !! c) as [r|] eqn:E; simpl.
  - apply quote_table_entry in E as [-> | ->]; reflexivity.
  - unfold normalize_text, translate. simpl. rewrite E. reflexivity.
Qed.

Lemma normalize_text_idempotent s :
  normalize_text (normalize_text s) = normalize_text s.
Proof.
  induction s as [|c s IH]; [reflexivity|].
  change (normalize_text (c :: s))
    with (default [c] (quote_normalization_table !! c) ++ normalize_text s).
  unfold normalize_text at 1. rewrite translate_app.
  fold (normalize_text (default [c] (quote_normalization_table !! c))).
  fold (normalize_text (normalize_text s)).
  by rewrite normalize_text_char, IH.
Qed.

(** C8 (as amended): quote canonicalization is idempotent on every string;
    diacritic folding is idempotent on a string exactly when its folded form
    is in canonical order, which holds in particular when the decomposition
    of the string holds no character of non-zero combining class other than
    nonspacing marks.  The character database is any one whose full
    decompositions do not decompose further. *)
Theorem normalization_idempotent combining decomposition is_Mn (s : pystr) :
  decomposition_closed decomposition ->
  normalize_text (normalize_text s) = normalize_text s /\
  (normalize_accents combining decomposition is_Mn
     (normalize_accents combining decomposition is_Mn s)
   = normalize_accents combining decomposition is_Mn s
   <-> canonical_order combining
         (normalize_accents combining decomposition is_Mn s)
       = normalize_accents combining decomposition is_Mn s) /\
  (spacing_are_starters combining decomposition is_Mn s ->
   normalize_accents combining decomposition is_Mn
     (normalize_accents combining decomposition is_Mn s)
   = normalize_accents combining decomposition is_Mn s).
Proof.
  intros Hclosed. split; [apply normalize_text_idempotent|]. split.
  - by rewrite normalize_accents_twice.
  - intros Hs. by apply normalize_accents_idempotent.
Qed.

Lemma sample_decomposition_closed :
  decomposition_closed UnicodeSample.decomposition.
Proof.
  intros c d. unfold UnicodeSample.decomposition.
  destruct (c =? 0xE9)%N eqn:E1; [|destruct (c =? 0xF6)%N eqn:E2].
  - rewrite elem_of_cons, list_elem_of_singleton. intros [-> | ->]; reflexivity.
  - rewrite elem_of_cons, list_elem_of_singleton. intros [-> | ->]; reflexivity.
  - rewrite list_elem_of_singleton. intros ->. by rewrite E1, E2.
Qed.

Lemma normalization_idempotent_witness :
  spacing_are_starters UnicodeSample.combining UnicodeSample.decomposition
    UnicodeSample.is_Mn cafe /\
  normalize_text (normalize_text cafe) = normalize_text cafe /\
  normalize_accents UnicodeSample.combining UnicodeSample.decomposition
    UnicodeSample.is_Mn
    (normalize_accents UnicodeSample.combining UnicodeSample.decomposition
       UnicodeSample.is_Mn cafe)
  = normalize_accents UnicodeSample.combining UnicodeSample.decomposition
      UnicodeSample.is_Mn cafe.
Proof.
  assert (Hs : spacing_are_starters UnicodeSample.combining
                 UnicodeSample.decomposition UnicodeSample.is_Mn cafe).
  { unfold spacing_are_starters.
    repeat (constructor; [by vm_compute|]). constructor. }
  split; [exact Hs|].
  destruct (normalization_idempotent UnicodeSample.combining
              UnicodeSample.decomposition UnicodeSample.is_Mn cafe
              sample_decomposition_closed) as (Ht & _ & Ha).
  split; [exact Ht | exact (Ha Hs)].
Defined.

(** C8 (as stated) fails for diacritic folding: in U+1D16D U+034F U+1D165
    the joiner U+034F (a nonspacing mark of class 0) keeps the two spacing
    marks apart; the first folding removes it, and the second one reorders
    the marks, now adjacent and out of canonical order. *)
Lemma normalize_accents_not_idempotent :
  normalize_accents UnicodeSample.combining UnicodeSample.decomposition
    UnicodeSample.is_Mn
    (normalize_accents UnicodeSample.combining UnicodeSample.decomposition
       UnicodeSample.is_Mn [0x1D16D; 0x34F; 0x1D165]%N)
  <> normalize_accents UnicodeSample.combining UnicodeSample.decomposition
       UnicodeSample.is_Mn [0x1D16D; 0x34F; 0x1D165]%N.
Proof. vm_compute. discriminate. Qed.

Example normalize_accents_joiner :
  normalize_accents UnicodeSample.combining UnicodeSample.decomposition
    UnicodeSample.is_Mn [0x1D16D; 0x34F; 0x1D165]%N = [0x1D16D; 0x1D165]%N /\
  normalize_accents UnicodeSample.combining UnicodeSample.decomposition
    UnicodeSample.is_Mn [0x1D16D; 0x1D165]%N = [0x1D165; 0x1D16D]%N.
Proof. split; reflexivity. Qed.

(** ** Completion *)

(** Indexing inside the bounds returns the element and does not raise. *)
Lemma getitem_in_range {A} (s : list A) (i : Z) :
  0 ≤ i < len s ->
  exists c, s !! Z.to_nat i = Some c /\ getitem s i = Ok c.
Proof.
  intros Hi. unfold getitem, len in *.
  destruct (Z.ltb_spec i 0); [lia|].
  destruct (Z.ltb_spec i 0); [lia|].
  destruct (lookup_lt_is_Some_2 s (Z.to_nat i)) as [c Hc]; [lia|].
  exists c. by rewrite Hc.
Qed.

Section EngineFacts.
Variable combining : codepoint -> N.
Variable decomposition : codepoint -> pystr.
Variable is_Mn : codepoint -> bool.

Local Abbreviation accents := (normalize_accents combining decomposition is_Mn).
Local Abbreviation complete_loop :=
  (is_complete_loop combining decomposition is_Mn).
Local Abbreviation folded_equal :=
  (folded_equal_at combining decomposition is_Mn).

Lemma is_complete_loop_spec g idxs :
  Forall (fun i => 0 ≤ i < len (typed_text g) /\ i < len (quote g)) idxs ->
  exists b, complete_loop g idxs = Ok b /\
    (b = true <-> forall i, i ∈ idxs -> folded_equal g (Z.to_nat i)).
Proof.
  induction 1 as [|i idxs [Ht Hq] _ (b & Hb & IH)]; simpl.
  - exists true. split; [done|]. split; [|done]. intros _ i Hi.
    by apply elem_of_nil in Hi.
  - destruct (getitem_in_range (typed_text g) i) as (tc & Htc & ->); [lia|].
    destruct (getitem_in_range (quote g) i) as (qc & Hqc & ->); [lia|].
    simpl. case_bool_decide as Hne.
    + exists false. split; [done|]. split; [done|]. intros Hall.
      destruct Hne. apply (Hall i); [by left|done..].
    + exists b. split; [done|]. rewrite IH. split.
      * intros Hall j Hj. apply elem_of_cons in Hj as [-> | Hj]; [|by auto].
        intros tc' qc' Htc' Hqc'.
        assert (Some tc' = Some tc) as [= ->] by (rewrite <- Htc'; exact Htc).
        assert (Some qc' = Some qc) as [= ->] by (rewrite <- Hqc'; exact Hqc).
        exact Hne.
      * intros Hall j Hj. apply Hall. by right.
Qed.
End EngineFacts.

(** C1: [is_complete] returns (it never raises), and it returns [True]
    exactly when the typed text is as long as the quote and, at every index,
    the typed character and the quote character are equal after diacritic
    folding; with lengths that differ it returns [False]. *)
Theorem is_complete_spec combining decomposition is_Mn (g : Game) :
  exists b, is_complete combining decomposition is_Mn g = Ok b /\
    (b = true <->
     length (typed_text g) = length (quote g) /\
     forall i, (i < length (quote g))%nat ->
       folded_equal_at combining decomposition is_Mn g i) /\
    (length (typed_text g) <> length (quote g) -> b = false).
Proof.
  unfold is_complete. case_bool_decide as Hlen.
  - exists false. unfold len in Hlen.
    split; [done|]. split; [|done].
    split; [done|]. intros [Heq _]. lia.
  - destruct (is_complete_loop_spec combining decomposition is_Mn g
                (py_range (len (quote g)))) as (b & Hb & Hiff).
    { apply Forall_forall. intros i Hi. unfold py_range in Hi.
      apply elem_of_seqZ in Hi. lia. }
    exists b. split; [done|]. unfold len in Hlen. split.
    + rewrite Hiff. split.
      * intros Hall. split; [lia|]. intros i Hi.
        rewrite <- (Nat2Z.id i). apply Hall. unfold py_range.
        apply elem_of_seqZ. unfold len. lia.
      * intros [_ Hall] i Hi. apply Hall. unfold py_range in Hi.
        apply elem_of_seqZ in Hi. unfold len in Hi. lia.
    + intros Hne. lia.
Qed.

(** The accented target is matched by the plain letter, and a length
    mismatch is never complete. *)
Example is_complete_accent :
  is_complete UnicodeSample.combining UnicodeSample.decomposition
    UnicodeSample.is_Mn accent_game = Ok true /\
  is_complete UnicodeSample.combining UnicodeSample.decomposition
    UnicodeSample.is_Mn full_game = Ok false /\
  is_complete UnicodeSample.combining UnicodeSample.decomposition
    UnicodeSample.is_Mn fresh_game = Ok false.
Proof. repeat split; reflexivity. Qed.

(** ** Key handling *)

Lemma backspace_keys ch :
  ch ∈ [KEY_BACKSPACE; 127; 8] <-> ch = 263 \/ ch = 127 \/ ch = 8.
Proof.
  unfold KEY_BACKSPACE. rewrite !elem_of_cons, elem_of_nil. tauto.
Qed.

(** The quote table has no entry for an ASCII character. *)
Lemma quote_table_ascii (c : codepoint) :
  (c < 0x2018)%N -> quote_normalization_table !! c = None.
Proof.
  intros Hc. unfold quote_normalization_table.
  rewrite !lookup_insert, lookup_singleton.
  repeat case_decide; try done; lia.
Qed.

Lemma normalize_text_ascii (c : codepoint) :
  (c < 0x2018)%N -> normalize_text [c] = [c].
Proof.
  intros Hc. unfold normalize_text, translate. simpl.
  by rewrite quote_table_ascii.
Qed.

Section KeyFacts.
Variable combining : codepoint -> N.
Variable decomposition : codepoint -> pystr.
Variable is_Mn : codepoint -> bool.

Local Abbreviation track := (track_errors combining decomposition is_Mn).
Local Abbreviation key := (handle_key combining decomposition is_Mn).
Local Abbreviation loop := (typing_loop combining decomposition is_Mn).

(** Error tracking does not raise, and adds at most one error. *)
Lemma track_errors_ok g :
  typed_text g <> [] ->
  exists e, track g = Ok e /\ errors g ≤ e ≤ errors g + 1.
Proof.
  intros Hne. unfold track_errors.
  assert (0 < len (typed_text g)).
  { unfold len. destruct (typed_text g); [done|]. simpl. lia. }
  destruct (Z.ltb_spec (len (typed_text g) - 1) (len (quote g))).
  - destruct (getitem_in_range (typed_text g) (len (typed_text g) - 1))
      as (tc & _ & ->); [lia|].
    destruct (getitem_in_range (quote g) (len (typed_text g) - 1))
      as (qc & _ & ->); [lia|].
    simpl. case_bool_decide; eexists; (split; [done|lia]).
  - eexists. split; [done|lia].
Qed.

(** Past the end of the quote nothing is compared. *)
Lemma track_errors_past_end g :
  len (quote g) < len (typed_text g) -> track g = Ok (errors g).
Proof.
  intros Hlen. unfold track_errors.
  destruct (Z.ltb_spec (len (typed_text g) - 1) (len (quote g))); [lia|done].
Qed.

(** The game before the character of a printable key is appended. *)
Lemma handle_key_printable ch now g :
  32 ≤ ch ≤ 126 ->
  let g1 := match start_time g with
            | None => set_start_time (Some now) g
            | Some _ => g
            end in
  let g2 := set_typed_text (typed_text g ++ [Z.to_N ch]) g1 in
  exists e, track g2 = Ok e /\ errors g ≤ e ≤ errors g + 1 /\
    key ch now g = Continue (set_errors e g2).
Proof.
  intros Hch g1 g2.
  destruct (track_errors_ok g2) as (e & He & Hle).
  { subst g2. simpl. by destruct (typed_text g). }
  exists e. split; [done|]. split.
  { subst g2 g1. destruct (start_time g); simpl in Hle; lia. }
  unfold handle_key.
  case_bool_decide as Hb; [apply backspace_keys in Hb; lia|].
  case_bool_decide; [lia|]. case_bool_decide; [lia|].
  case_bool_decide; [|lia].
  rewrite normalize_text_ascii by lia.
  subst g2 g1. destruct (start_time g);
    cbn [typed_text set_start_time] in *; by rewrite He.
Qed.

Lemma handle_key_errors ch now g :
  errors g ≤ errors (game_after (key ch now g) g).
Proof.
  unfold handle_key.
  case_bool_decide; [case_bool_decide; simpl; lia|].
  case_bool_decide; [simpl; lia|].
  case_bool_decide; [by destruct (start_time g); simpl|].
  case_bool_decide as Hch; [|simpl; lia].
  destruct (handle_key_printable ch now g Hch) as (e & _ & Hle & Hk).
  unfold handle_key in Hk. repeat case_bool_decide; try done.
  rewrite Hk. simpl. lia.
Qed.

Lemma typing_loop_errors keys g : errors g ≤ errors (loop keys g).2.
Proof.
  revert g. induction keys as [|[ch now] keys IH]; intros g; simpl.
  - destruct (is_complete _ _ _ g) as [[]|]; simpl; lia.
  - destruct (is_complete _ _ _ g) as [[]|]; simpl; try lia.
    pose proof (handle_key_errors ch now g) as Hstep.
    destruct (key ch now g) as [g'|g'|e]; simpl in *; [|lia..].
    specialize (IH g'). lia.
Qed.

Lemma typing_loop_errors_app keys more g :
  errors (loop keys g).2 ≤ errors (loop (keys ++ more) g).2.
Proof.
  revert g. induction keys as [|[ch now] keys IH]; intros g.
  - pose proof (typing_loop_errors more g) as Hmore. simpl app.
    destruct more as [|[ch now] more]; simpl in *;
      destruct (is_complete _ _ _ g) as [[]|]; simpl in *; lia.
  - simpl. destruct (is_complete _ _ _ g) as [[]|]; simpl; try lia.
    destruct (key ch now g) as [g'|g'|e]; simpl; [apply IH|lia..].
Qed.
End KeyFacts.

Lemma drop_last_snoc {A} (s : list A) :
  s <> [] -> exists c, s = drop_last s ++ [c].
Proof.
  destruct s as [|a s _] using rev_ind; [done|]. intros _. exists a.
  unfold drop_last. rewrite length_app. simpl.
  replace (length s + 1 - 1)%nat with (length s) by lia.
  by rewrite take_app_length.
Qed.

(** C3: [game.errors] never decreases along the typing loop: it is at least
    its initial value after any sequence of keys, and feeding more keys never
    lowers it; a backspace on a non-empty typed text removes the last
    character and leaves [game.errors] as it was. *)
Theorem errors_never_decrease combining decomposition is_Mn :
  (forall keys g,
     errors g ≤ errors (typing_loop combining decomposition is_Mn keys g).2) /\
  (forall keys more g,
     errors (typing_loop combining decomposition is_Mn keys g).2
     ≤ errors (typing_loop combining decomposition is_Mn (keys ++ more) g).2) /\
  (forall ch now g,
     ch ∈ [KEY_BACKSPACE; 127; 8] -> typed_text g <> [] ->
     exists g' c,
       handle_key combining decomposition is_Mn ch now g = Continue g' /\
       typed_text g = typed_text g' ++ [c] /\
       errors g' = errors g).
Proof.
  split; [apply typing_loop_errors|]. split; [apply typing_loop_errors_app|].
  intros ch now g Hch Hne. unfold handle_key.
  rewrite bool_decide_eq_true_2 by done.
  rewrite bool_decide_eq_true_2.
  - destruct (drop_last_snoc (typed_text g) Hne) as [c Hc].
    eexists _, c. split; [done|]. split; [exact Hc|done].
  - unfold len. destruct (typed_text g); [done|]. simpl. lia.
Qed.

(** A wrong key that is deleted and retyped still counts: the round
    completes with one error. *)
Example typing_loop_corrected :
  typing_loop UnicodeSample.combining UnicodeSample.decomposition
    UnicodeSample.is_Mn corrected_keys fresh_game
  = (Completed, mkGame (py "ab") (py "ab") (Some 1000%float) None 1).
Proof. reflexivity. Qed.

(** C5 (as amended): in a round whose clock has not started, a key starts
    it exactly when it is a printable character or the Ctrl+X shortcut (key
    24), which stores the current time before it ends the round; a
    backspace, like every other key, leaves [start_time] unset. *)
Theorem clock_start combining decomposition is_Mn ch now g :
  start_time g = None ->
  start_time
    (game_after (handle_key combining decomposition is_Mn ch now g) g)
  = if bool_decide (ch = 24 \/ 32 ≤ ch ≤ 126) then Some now else None.
Proof.
  intros Hnone.
  destruct (decide (32 ≤ ch ≤ 126)) as [Hch|Hch].
  - rewrite bool_decide_eq_true_2 by auto.
    destruct (handle_key_printable combining decomposition is_Mn ch now g Hch)
      as (e & _ & _ & ->).
    rewrite Hnone. reflexivity.
  - unfold handle_key.
    destruct (decide (ch ∈ [KEY_BACKSPACE; 127; 8])) as [Hb|Hb].
    { rewrite (bool_decide_eq_true_2 _ Hb). apply backspace_keys in Hb.
      rewrite (bool_decide_eq_false_2 (ch = 24 \/ 32 ≤ ch ≤ 126)) by lia.
      by case_bool_decide. }
    rewrite (bool_decide_eq_false_2 _ Hb).
    destruct (decide (ch = 3)) as [H3|H3].
    { rewrite (bool_decide_eq_true_2 _ H3).
      by rewrite (bool_decide_eq_false_2 (ch = 24 \/ 32 ≤ ch ≤ 126)) by lia. }
    rewrite (bool_decide_eq_false_2 _ H3).
    destruct (decide (ch = 24)) as [H24|H24].
    + rewrite (bool_decide_eq_true_2 (ch = 24) H24).
      rewrite (bool_decide_eq_true_2 (ch = 24 \/ 32 ≤ ch ≤ 126)) by auto.
      by rewrite Hnone.
    + rewrite (bool_decide_eq_false_2 (ch = 24) H24).
      rewrite (bool_decide_eq_false_2 (32 ≤ ch ≤ 126) Hch).
      by rewrite (bool_decide_eq_false_2 (ch = 24 \/ 32 ≤ ch ≤ 126)) by tauto.
Qed.

Lemma clock_start_witness :
  start_time fresh_game = None /\
  start_time
    (game_after (handle_key UnicodeSample.combining UnicodeSample.decomposition
                   UnicodeSample.is_Mn 127 1000%float fresh_game) fresh_game)
  = None.
Proof.
  split; [reflexivity|].
  exact (clock_start UnicodeSample.combining UnicodeSample.decomposition
           UnicodeSample.is_Mn 127 1000%float fresh_game eq_refl).
Defined.

(** C5 (as stated) fails for the abort: Ctrl+X on a round in which nothing
    was typed stores the clock reading in [start_time]. *)
Lemma abort_starts_clock :
  start_time fresh_game = None /\
  handle_key UnicodeSample.combining UnicodeSample.decomposition
    UnicodeSample.is_Mn 24 1000%float fresh_game
  = Break (mkGame (py "ab") [] (Some 1000%float) None 0).
Proof. split; reflexivity. Qed.

(** C9: a printable key pressed when the typed text is already as long as
    the quote (or longer) appends its character and leaves [game.errors]
    unchanged. *)
Theorem overflow_not_counted combining decomposition is_Mn ch now g :
  32 ≤ ch ≤ 126 ->
  len (typed_text g) >= len (quote g) ->
  exists g',
    handle_key combining decomposition is_Mn ch now g = Continue g' /\
    typed_text g' = typed_text g ++ [Z.to_N ch] /\
    errors g' = errors g.
Proof.
  intros Hch Hlen.
  destruct (handle_key_printable combining decomposition is_Mn ch now g Hch)
    as (e & He & _ & ->).
  eexists. split; [done|]. split; [by destruct (start_time g)|].
  rewrite track_errors_past_end in He.
  - injection He as <-. by destruct (start_time g).
  - unfold len in *.
    destruct (start_time g); simpl; rewrite length_app; simpl; lia.
Qed.

Lemma overflow_not_counted_witness :
  exists g',
    handle_key UnicodeSample.combining UnicodeSample.decomposition
      UnicodeSample.is_Mn 122 1001%float full_game = Continue g' /\
    typed_text g' = py "xyz" /\
    errors g' = 2.
Proof.
  apply (overflow_not_counted UnicodeSample.combining
           UnicodeSample.decomposition UnicodeSample.is_Mn 122 1001%float
           full_game).
  - lia.
  - vm_compute. discriminate.
Defined.

(** ** Tier classification *)

(** C2: the tier is decided by an ordered cascade on [(wpm, errors)]:
    pristine iff [wpm >= 90] and [errors <= 0]; otherwise exceptional iff
    [wpm >= 80]; otherwise adequate iff [wpm >= 70]; otherwise disaster.  In
    particular the tiers of (90, 0), (90, 1), (75, 5) and (10, 0) are
    pristine, exceptional, adequate and disaster. *)
Theorem calculate_tier_cascade (wpm : pyfloat) (errors : Z) :
  let top := float_ge_int wpm 90 = true /\ errors ≤ 0 in
  (calculate_tier wpm errors = pristine <-> top) /\
  (calculate_tier wpm errors = exceptional <->
     ~ top /\ float_ge_int wpm 80 = true) /\
  (calculate_tier wpm errors = adequate <->
     ~ top /\ float_ge_int wpm 80 = false /\ float_ge_int wpm 70 = true) /\
  (calculate_tier wpm errors = disaster <->
     ~ top /\ float_ge_int wpm 80 = false /\ float_ge_int wpm 70 = false) /\
  calculate_tier 90 0 = pristine /\
  calculate_tier 90 1 = exceptional /\
  calculate_tier 75 5 = adequate /\
  calculate_tier 10 0 = disaster.
Proof.
  unfold calculate_tier, RewardConfig.PRISTINE_WPM,
    RewardConfig.PRISTINE_MAX_ERRORS, RewardConfig.EXCEPTIONAL_WPM,
    RewardConfig.ADEQUATE_WPM.
  cbv zeta.
  destruct (float_ge_int wpm 90), (float_ge_int wpm 80),
    (float_ge_int wpm 70); case_bool_decide; simpl;
    repeat split; try done; try tauto; intros; intuition (done || lia).
Qed.

(** ** Timing *)

Lemma float_div_int_60 x : float_div_int x 60 = Ok (x / 60)%float.
Proof. reflexivity. Qed.

Lemma int_truediv_5 n : int_truediv n 5 = Ok (float_of_int n / 5)%float.
Proof. reflexivity. Qed.

(** [calculate_wpm] does not read [end_time]. *)
Lemma calculate_wpm_ignores_end_time py_round now v g :
  calculate_wpm py_round now (set_end_time v g) = calculate_wpm py_round now g.
Proof. reflexivity. Qed.

(** C4: [calculate_wpm] returns 0.0 for every clock reading when the clock
    has not started or nothing is typed, and 0.0 when the elapsed time is
    exactly 0 (no division takes place); otherwise it returns
    [(len(typed_text) / 5) / (elapsed / 60)] rounded to one decimal.  The
    last case is stated for a start time that is a non-zero clock reading
    (the test [not self.start_time] takes 0.0 for unset) and an elapsed time
    whose sixtieth does not underflow to zero. *)
Theorem calculate_wpm_spec py_round (now : pyfloat) (g : Game) :
  (start_time g = None \/ typed_text g = [] ->
   calculate_wpm py_round now g = Ok 0%float) /\
  (forall started,
     start_time g = Some started ->
     (now - started =? 0)%float = true ->
     calculate_wpm py_round now g = Ok 0%float) /\
  (forall started,
     start_time g = Some started ->
     (started =? 0)%float = false ->
     typed_text g <> [] ->
     (now - started =? 0)%float = false ->
     ((now - started) / 60 =? 0)%float = false ->
     calculate_wpm py_round now g
     = Ok (py_round
             ((float_of_int (len (typed_text g)) / 5)
              / ((now - started) / 60))%float 1)).
Proof.
  unfold calculate_wpm. repeat split.
  - intros [-> | ->]; [reflexivity|]. simpl. by rewrite orb_true_r.
  - intros started -> Hzero. simpl. rewrite Hzero.
    by destruct (_ || _).
  - intros started -> Hstart Hne Helapsed Hminutes. cbn [not_time].
    rewrite Hstart, bool_decide_eq_false_2.
    + cbn [orb]. rewrite Helapsed, float_div_int_60, int_truediv_5.
      cbn [mbind result_bind]. unfold float_div. by rewrite Hminutes.
    + unfold len. destruct (typed_text g); [done|]. simpl. lia.
Qed.

Lemma calculate_wpm_spec_witness :
  calculate_wpm FloatSample.round_half_even 1060 hello_game = Ok 1%float /\
  calculate_wpm FloatSample.round_half_even 1000 hello_game = Ok 0%float /\
  calculate_wpm FloatSample.round_half_even 1060 fresh_game = Ok 0%float.
Proof.
  destruct (calculate_wpm_spec FloatSample.round_half_even 1060 hello_game)
    as (_ & _ & Hrun).
  destruct (calculate_wpm_spec FloatSample.round_half_even 1000 hello_game)
    as (_ & Hzero & _).
  destruct (calculate_wpm_spec FloatSample.round_half_even 1060 fresh_game)
    as (Hunset & _ & _).
  split; [|split].
  - rewrite (Hrun 1000%float); [reflexivity|reflexivity|reflexivity|discriminate
                               |reflexivity|reflexivity].
  - apply (Hzero 1000%float); reflexivity.
  - apply Hunset. by left.
Defined.

(** Why the last case of [calculate_wpm_spec] names its two conditions:
    readings no wall clock returns.  A start time of 0.0 counts as unset, and
    an elapsed time of one smallest float has a sixtieth of zero, by which
    Python refuses to divide. *)
Example calculate_wpm_off_clock :
  calculate_wpm FloatSample.round_half_even 60 zero_clock_game = Ok 0%float /\
  calculate_wpm FloatSample.round_half_even 0x1p-1073 tiny_clock_game
  = Raise ZeroDivisionError.
Proof. split; reflexivity. Qed.

(** C6 (as amended): the duration a round records is [end_time -
    start_time], computed from the two stored readings, and 0.0 when the
    clock never started; the words per minute of the round are what
    [calculate_wpm] returns for a clock reading taken after [end_time] was
    stored (it subtracts [start_time] from that fresh reading and never
    looks at [end_time]), and 0.0 when the clock never started. *)
Theorem finish_round_timing py_round (t_end t_wpm : pyfloat) (g : Game) :
  finish_round py_round t_end t_wpm g
  = match start_time g with
    | None =>
        Ok (set_end_time (Some t_end) g,
            mkSummary 0 0 (calculate_tier 0 (errors g)))
    | Some started =>
        w ← calculate_wpm py_round t_wpm g;
        Ok (set_end_time (Some t_end) g,
            mkSummary w (t_end - started) (calculate_tier w (errors g)))
    end /\
  (forall now v,
     calculate_wpm py_round now (set_end_time v g)
     = calculate_wpm py_round now g).
Proof.
  split; [|intros; apply calculate_wpm_ignores_end_time].
  unfold finish_round. simpl.
  destruct (start_time g) as [started|] eqn:E; [|reflexivity].
  rewrite calculate_wpm_ignores_end_time.
  by destruct (calculate_wpm py_round t_wpm g).
Qed.

(** C6 (as stated) fails for the words per minute: with the same stored
    [start_time] (1000) and [end_time] (1060), the round's figure follows the
    reading [calculate_wpm] takes afterwards. *)
Lemma final_wpm_reads_clock :
  (r ← finish_round FloatSample.round_half_even 1060 1060 hello_game;
   Ok (r.1, elapsed_time r.2, final_wpm r.2))
  = Ok (set_end_time (Some 1060%float) hello_game, 60%float, 1%float)
  /\
  (r ← finish_round FloatSample.round_half_even 1060 1120 hello_game;
   Ok (r.1, elapsed_time r.2, final_wpm r.2))
  = Ok (set_end_time (Some 1060%float) hello_game, 60%float, 0.5%float).
Proof. split; reflexivity. Qed.

(** ** The statistics log *)

Section StatsFacts.
Variable py_round : pyfloat -> Z -> pyfloat.
Variable py_sum : list pyfloat -> pyfloat.
Variable str_of_float : pyfloat -> pystr.
Variable float_of_str : pystr -> option pyfloat.

Local Abbreviation row_of :=
  (fun r => stats_row py_round str_of_float (rec_now r) (rec_wpm r)
              (rec_elapsed r) (rec_tier r) (rec_game r)).
Local Abbreviation stats := (get_historical_stats py_round py_sum float_of_str).
Local Abbreviation stats_of := (historical_stats_of py_round py_sum float_of_str).
Local Abbreviation append :=
  (append_all py_round str_of_float).

(** A row that [save_stats] wrote, read back under the header: its [wpm]
    and [tier] fields. *)
Lemma stats_row_fields now w e t g :
  let d := dict_reader_row stats_header
             (stats_row py_round str_of_float now w e t g) in
  d !! Some (py "wpm") = Some (CStr (str_of_float w)) /\
  d !! Some (py "tier") = Some (CStr (tier_key t)).
Proof.
  unfold dict_reader_row, stats_header, stats_row. simpl.
  split.
  - do 4 (rewrite lookup_insert_ne by (vm_compute; congruence)).
    by rewrite lookup_insert_eq.
  - by rewrite lookup_insert_eq.
Qed.

Lemma append_all_rows rs base :
  append rs (Rows base) = Rows (base ++ (row_of <$> rs)).
Proof.
  unfold append_all. revert base.
  induction rs as [|r rs IH]; intros base; simpl.
  - by rewrite app_nil_r.
  - rewrite IH, <- app_assoc. reflexivity.
Qed.

Lemma dict_reader_saved rs :
  dict_reader (stats_header :: (row_of <$> rs))
  = (fun r => dict_reader_row stats_header (row_of r)) <$> rs.
Proof.
  unfold dict_reader. induction rs as [|r rs IH]; [reflexivity|].
  rewrite fmap_cons, filter_cons_True by done. simpl. by rewrite IH.
Qed.

Lemma wpm_column_saved rs :
  Forall (fun r => float_of_str (str_of_float (rec_wpm r)) = Some (rec_wpm r)) rs ->
  wpm_column float_of_str
    ((fun r => dict_reader_row stats_header (row_of r)) <$> rs)
  = Ok (rec_wpm <$> rs).
Proof.
  induction 1 as [|r rs Hr _ IH]; [reflexivity|].
  rewrite fmap_cons. cbn [wpm_column]. rewrite IH.
  unfold read_wpm, dict_getitem.
  destruct (stats_row_fields (rec_now r) (rec_wpm r) (rec_elapsed r)
              (rec_tier r) (rec_game r)) as [-> _].
  simpl. by rewrite Hr.
Qed.

Lemma count_tiers_saved rs counts :
  exists counts',
    count_tiers ((fun r => dict_reader_row stats_header (row_of r)) <$> rs)
      counts = Ok counts'.
Proof.
  revert counts. induction rs as [|r rs IH]; intros counts.
  - by exists counts.
  - rewrite fmap_cons. cbn [count_tiers]. unfold dict_get.
    destruct (stats_row_fields (rec_now r) (rec_wpm r) (rec_elapsed r)
                (rec_tier r) (rec_game r)) as [_ ->].
    simpl. apply IH.
Qed.

Lemma recent_of_drop (wpms : list pyfloat) :
  recent_of wpms = drop (length wpms - 5) wpms.
Proof.
  unfold recent_of, len. case_bool_decide as H; [done|].
  replace (length wpms - 5)%nat with 0%nat by lia. done.
Qed.

Lemma recent_length (wpms : list pyfloat) :
  length (drop (length wpms - 5) wpms) = (length wpms `min` 5)%nat.
Proof. rewrite length_drop. lia. Qed.

(** A row whose [wpm] field cannot be read makes the whole column fail. *)
Lemma wpm_column_raises rows row e :
  row ∈ rows -> read_wpm float_of_str row = Raise e ->
  exists e', wpm_column float_of_str rows = Raise e'.
Proof.
  induction 1 as [row rows|row row' rows _ IH]; intros He; simpl.
  - rewrite He. eexists. reflexivity.
  - destruct (read_wpm float_of_str row') as [x|e0];
      [|eexists; reflexivity].
    destruct (IH He) as [e' ->]. eexists. reflexivity.
Qed.
End StatsFacts.

Lemma py_max_nonempty (l : list pyfloat) :
  l <> [] -> exists m, py_max l = Ok m.
Proof. destruct l; [done|]. intros _. eexists. reflexivity. Qed.

(** C7 (as amended): a fresh log has no data ([None]); after [N >= 1] calls
    of [save_stats] whose wpm values read back from their CSV text,
    [get_historical_stats] returns [total_rounds = N], [best_wpm] = the
    maximum of the appended wpm values rounded to one decimal, and
    [recent_avg_wpm] (like [avg_wpm] over all rows) = the sum of the last
    [min(5, N)] values divided by their number, rounded to one decimal. *)
Theorem stats_round_trip py_round py_sum str_of_float float_of_str
    (rs : list SessionRecord) :
  let wpms := rec_wpm <$> rs in
  let recent := drop (length wpms - 5) wpms in
  get_historical_stats py_round py_sum float_of_str
    (initialize_stats_file Missing) = None /\
  (rs <> [] ->
   Forall (fun r => float_of_str (str_of_float (rec_wpm r)) = Some (rec_wpm r))
     rs ->
   exists st best,
     get_historical_stats py_round py_sum float_of_str
       (append_all py_round str_of_float rs (initialize_stats_file Missing))
     = Some st /\
     total_rounds st = len rs /\
     py_max wpms = Ok best /\
     best_wpm st = py_round best 1 /\
     length recent = (length rs `min` 5)%nat /\
     recent_avg_wpm st
     = py_round (py_sum recent / float_of_int (len recent))%float 1 /\
     avg_wpm st = py_round (py_sum wpms / float_of_int (len wpms))%float 1).
Proof.
  intros wpms recent. split; [reflexivity|]. intros Hne Hread.
  assert (Hlen : length wpms = length rs) by apply length_fmap.
  assert (Hpos : (0 < length rs)%nat) by (destruct rs; [done|simpl; lia]).
  destruct (py_max_nonempty wpms) as [best Hbest].
  { intros Hnil. rewrite Hnil in Hlen. simpl in Hlen. lia. }
  destruct (count_tiers_saved py_round str_of_float rs ∅) as [counts Hcounts].
  assert (Hrecent : length recent = (length rs `min` 5)%nat).
  { subst recent. rewrite recent_length. lia. }
  exists (mkStats (len rs)
            (py_round (py_sum wpms / float_of_int (len wpms))%float 1)
            (py_round (py_sum recent / float_of_int (len recent))%float 1)
            (py_round best 1) counts), best.
  split; [|done].
  simpl initialize_stats_file. rewrite append_all_rows. simpl app.
  unfold get_historical_stats, historical_stats_of.
  rewrite dict_reader_saved.
  rewrite bool_decide_eq_false_2 by (unfold len; rewrite length_fmap; lia).
  rewrite wpm_column_saved by done. cbn [mbind result_bind].
  rewrite Hcounts. cbn [mbind result_bind].
  fold wpms. rewrite recent_of_drop. fold recent.
  unfold float_div_int.
  destruct (Z.eqb_spec (len wpms) 0) as [E|_]; [unfold len in E; lia|].
  destruct (Z.eqb_spec (len recent) 0) as [E|_]; [unfold len in E; lia|].
  cbn [mbind result_bind]. rewrite Hbest. cbn [mbind result_bind try_except].
  unfold len. by rewrite length_fmap.
Qed.

Lemma stats_round_trip_witness :
  exists st,
    get_historical_stats FloatSample.round_half_even FloatSample.sum_left
      FloatSample.float_of_decimal
      (append_all FloatSample.round_half_even FloatSample.str_of_float
         sample_records (initialize_stats_file Missing))
    = Some st /\
    total_rounds st = 2 /\
    best_wpm st = 60.5%float.
Proof.
  destruct (stats_round_trip FloatSample.round_half_even FloatSample.sum_left
              FloatSample.str_of_float FloatSample.float_of_decimal
              sample_records) as [_ H].
  destruct H as (st & best & Hst & Hn & Hbest & Hb & _).
  - discriminate.
  - repeat constructor.
  - exists st. split; [exact Hst|]. split; [exact Hn|].
    rewrite Hb. injection Hbest as <-. reflexivity.
Defined.

(** C7 (as stated) fails for the recent average: after rounds of 60.0 and
    60.5 words per minute the average of the last records is 60.25, and
    [recent_avg_wpm] is that value rounded to one decimal, below it. *)
Lemma recent_average_is_rounded :
  exists st,
    get_historical_stats FloatSample.round_half_even FloatSample.sum_left
      FloatSample.float_of_decimal
      (append_all FloatSample.round_half_even FloatSample.str_of_float
         sample_records (initialize_stats_file Missing))
    = Some st /\
    (FloatSample.sum_left (rec_wpm <$> sample_records) / 2 = 60.25)%float /\
    (recent_avg_wpm st <? 60.25)%float = true.
Proof.
  eexists. split; [vm_compute; reflexivity|]. split; reflexivity.
Qed.

(** C10: [get_historical_stats] returns a value for every state of the
    file (every exception of its body is caught): it returns [None] for a
    missing file, for a file that cannot be read, for a file without data
    rows, and for a file with a data row whose [wpm] field does not convert
    to a float. *)
Theorem get_historical_stats_no_data py_round py_sum float_of_str :
  get_historical_stats py_round py_sum float_of_str Missing = None /\
  (forall e,
     get_historical_stats py_round py_sum float_of_str (Unreadable e) = None) /\
  get_historical_stats py_round py_sum float_of_str (Rows []) = None /\
  (forall header blanks,
     Forall (fun r => r = []) blanks ->
     get_historical_stats py_round py_sum float_of_str
       (Rows (header :: blanks)) = None) /\
  (forall header data row e,
     row ∈ data -> row <> [] ->
     read_wpm float_of_str (dict_reader_row header row) = Raise e ->
     get_historical_stats py_round py_sum float_of_str
       (Rows (header :: data)) = None).
Proof.
  split; [reflexivity|]. split; [reflexivity|]. split; [reflexivity|]. split.
  - intros header blanks Hblank.
    unfold get_historical_stats, historical_stats_of, dict_reader.
    assert (filter (fun r : csv_row => r <> []) blanks = []) as ->.
    { induction Hblank as [|r blanks -> _ IH]; [done|].
      by rewrite filter_cons_False by (intros H; by apply H). }
    reflexivity.
  - intros header data row e Hin Hne Hbad.
    unfold get_historical_stats, historical_stats_of.
    destruct (wpm_column_raises float_of_str
                (dict_reader (header :: data))
                (dict_reader_row header row) e) as [e' He']; [|done|].
    + unfold dict_reader. apply list_elem_of_fmap. exists row.
      split; [done|]. by apply list_elem_of_filter.
    + rewrite He'. by case_bool_decide.
Qed.

Lemma get_historical_stats_no_data_witness :
  get_historical_stats FloatSample.round_half_even FloatSample.sum_left
    FloatSample.float_of_decimal broken_log = None.
Proof.
  destruct (get_historical_stats_no_data FloatSample.round_half_even
              FloatSample.sum_left FloatSample.float_of_decimal)
    as (_ & _ & _ & _ & Hbad).
  unfold broken_log.
  eapply Hbad with (e := ValueError); [by left|discriminate|reflexivity].
Defined.

(** * Further properties of the program *)

(** ** Quote punctuation *)

Lemma quote_table_lookup c :
  quote_normalization_table !! c
  = if bool_decide (c ∈ curly_quotes)
    then Some [if bool_decide (c = 0x201C \/ c = 0x201D)%N then 34 else 39]%N
    else None.
Proof.
  destruct (decide (c ∈ curly_quotes)) as [Hc|Hc].
  - rewrite (bool_decide_eq_true_2 _ Hc). unfold curly_quotes in Hc.
    rewrite !elem_of_cons, elem_of_nil in Hc.
    destruct Hc as [->|[->|[->|[->|[]]]]]; vm_compute; reflexivity.
  - rewrite (bool_decide_eq_false_2 _ Hc). unfold curly_quotes in Hc.
    rewrite !elem_of_cons, elem_of_nil in Hc.
    unfold quote_normalization_table.
    rewrite !lookup_insert, lookup_singleton.
    rewrite !decide_False by (intros <-; tauto). reflexivity.
Qed.

Lemma normalize_text_cons c s :
  normalize_text (c :: s)
  = default [c] (quote_normalization_table !! c) ++ normalize_text s.
Proof. reflexivity. Qed.

Lemma normalize_text_same_length (s : pystr) :
  length (normalize_text s) = length s.
Proof.
  induction s as [|c s IH]; [reflexivity|].
  rewrite normalize_text_cons, length_app, IH, quote_table_lookup.
  by case_bool_decide.
Qed.

(** X1: [normalize_text] replaces character by character: the result is as
    long as its argument, so an index in the stored quote is the same index
    in the raw quote. *)
Theorem normalize_text_length (s : pystr) :
  length (normalize_text s) = length s.
Proof. apply normalize_text_same_length. Qed.

(** X2: the result of [normalize_text] holds none of the four curly quotes,
    and [normalize_text] leaves a string unchanged exactly when the string
    holds none. *)
Theorem normalize_text_straight (s : pystr) :
  (forall c, c ∈ normalize_text s -> c ∉ curly_quotes) /\
  (normalize_text s = s <-> forall c, c ∈ s -> c ∉ curly_quotes).
Proof.
  split.
  - induction s as [|c s IH]; intros x Hx.
    + by apply elem_of_nil in Hx.
    + rewrite normalize_text_cons, quote_table_lookup in Hx.
      apply elem_of_app in Hx as [Hx|Hx]; [|by apply IH].
      case_bool_decide as Hc; simpl in Hx;
        apply list_elem_of_singleton in Hx; subst x; [|done].
      unfold curly_quotes. case_bool_decide;
        rewrite !elem_of_cons, elem_of_nil; lia.
  - induction s as [|c s IH]; [by split; [intros _ c Hc; apply elem_of_nil in Hc|]|].
    rewrite normalize_text_cons, quote_table_lookup.
    case_bool_decide as Hc; simpl.
    + split.
      * intros [= Heq _]. exfalso. revert Hc. unfold curly_quotes.
        rewrite !elem_of_cons, elem_of_nil.
        case_bool_decide; lia.
      * intros Hall. exfalso. apply (Hall c); [by left|done].
    + split.
      * intros [= Heq]. intros x Hx.
        apply elem_of_cons in Hx as [->|Hx]; [done|]. by apply IH.
      * intros Hall. f_equal. apply IH. intros x Hx. apply Hall. by right.
Qed.

(** ** The typing loop *)

Section LoopFacts.
Variable combining : codepoint -> N.
Variable decomposition : codepoint -> pystr.
Variable is_Mn : codepoint -> bool.

Local Abbreviation accents := (normalize_accents combining decomposition is_Mn).
Local Abbreviation complete := (is_complete combining decomposition is_Mn).
Local Abbreviation key := (handle_key combining decomposition is_Mn).
Local Abbreviation loop := (typing_loop combining decomposition is_Mn).
Local Abbreviation folded_equal :=
  (folded_equal_at combining decomposition is_Mn).

Lemma is_complete_cases g :
  exists b, complete g = Ok b /\
    (b = true <->
     length (typed_text g) = length (quote g) /\
     forall i, (i < length (quote g))%nat -> folded_equal g i).
Proof.
  unfold is_complete. case_bool_decide as Hlen.
  - exists false. unfold len in Hlen. split; [done|].
    split; [done|]. intros [Heq _]. lia.
  - destruct (is_complete_loop_spec combining decomposition is_Mn g
                (py_range (len (quote g)))) as (b & Hb & Hiff).
    { apply Forall_forall. intros i Hi. unfold py_range in Hi.
      apply elem_of_seqZ in Hi. lia. }
    exists b. split; [done|]. unfold len in Hlen. rewrite Hiff. split.
    + intros Hall. split; [lia|]. intros i Hi.
      rewrite <- (Nat2Z.id i). apply Hall. unfold py_range.
      apply elem_of_seqZ. unfold len. lia.
    + intros [_ Hall] i Hi. apply Hall. unfold py_range in Hi.
      apply elem_of_seqZ in Hi. unfold len in Hi. lia.
Qed.

Lemma is_complete_short g :
  length (typed_text g) <> length (quote g) -> complete g = Ok false.
Proof.
  intros Hne. destruct (is_complete_cases g) as (b & -> & Hiff).
  destruct b; [|done]. destruct Hiff as [Hiff _].
  destruct (Hiff eq_refl) as [Heq _]. done.
Qed.

Lemma is_complete_same g :
  typed_text g = quote g -> complete g = Ok true.
Proof.
  intros Heq. destruct (is_complete_cases g) as (b & -> & Hiff).
  f_equal. apply Hiff. split; [by rewrite Heq|].
  intros i _ tc qc Ht Hq. rewrite Heq in Ht. congruence.
Qed.

(** A printable key at a position inside the quote. *)
Lemma handle_key_inside ch now g qc :
  32 ≤ ch ≤ 126 ->
  quote g !! length (typed_text g) = Some qc ->
  key ch now g
  = Continue
      (mkGame (quote g) (typed_text g ++ [Z.to_N ch])
         (match start_time g with None => Some now | Some t => Some t end)
         (end_time g)
         (errors g + if bool_decide (accents [Z.to_N ch] ≠ accents [qc])
                     then 1 else 0)).
Proof.
  intros Hch Hqc.
  destruct (handle_key_printable combining decomposition is_Mn ch now g Hch)
    as (e & He & _ & ->).
  f_equal. revert He. unfold track_errors.
  set (g1 := match start_time g with
             | Some _ => g
             | None => set_start_time (Some now) g
             end).
  assert (Hq1 : quote g1 = quote g) by (subst g1; by destruct (start_time g)).
  assert (He1 : errors g1 = errors g) by (subst g1; by destruct (start_time g)).
  assert (Hn1 : end_time g1 = end_time g) by (subst g1; by destruct (start_time g)).
  assert (Hs1 : start_time g1
                = match start_time g with None => Some now | Some t => Some t end)
    by (subst g1; destruct (start_time g) eqn:E; simpl; by rewrite ?E).
  cbn [typed_text quote errors set_typed_text]. rewrite Hq1, He1.
  assert (Hpos : len (typed_text g ++ [Z.to_N ch]) - 1
                 = Z.of_nat (length (typed_text g))).
  { unfold len. rewrite length_app. simpl. lia. }
  rewrite Hpos.
  apply lookup_lt_Some in Hqc as Hlt.
  destruct (Z.ltb_spec (Z.of_nat (length (typed_text g))) (len (quote g)))
    as [_|Hge]; [|unfold len in Hge; lia].
  unfold getitem.
  destruct (Z.ltb_spec (Z.of_nat (length (typed_text g))) 0); [lia|].
  destruct (Z.ltb_spec (Z.of_nat (length (typed_text g))) 0); [lia|].
  rewrite Nat2Z.id, lookup_app_r, Nat.sub_diag by lia. simpl.
  rewrite Hqc. simpl. intros He.
  unfold set_errors, set_typed_text. cbn [typed_text quote start_time end_time].
  rewrite Hq1, Hs1, Hn1. f_equal.
  destruct (bool_decide _); injection He as <-; lia.
Qed.

Lemma handle_key_quote ch now g :
  quote (game_after (key ch now g) g) = quote g /\
  end_time (game_after (key ch now g) g) = end_time g /\
  (forall t, start_time g = Some t ->
             start_time (game_after (key ch now g) g) = Some t).
Proof.
  destruct (decide (32 ≤ ch ≤ 126)) as [Hch|Hch].
  - destruct (handle_key_printable combining decomposition is_Mn ch now g Hch)
      as (e & _ & _ & ->).
    simpl. destruct (start_time g) eqn:E; simpl; rewrite ?E;
      repeat split; try done; intros t Ht; congruence.
  - unfold handle_key.
    case_bool_decide; [by case_bool_decide|].
    case_bool_decide; [done|].
    case_bool_decide;
      [destruct (start_time g) eqn:E; simpl; rewrite ?E; done|].
    by rewrite bool_decide_eq_false_2.
Qed.

Lemma handle_key_typed ch now g :
  Forall printable (typed_text g) ->
  Forall printable (typed_text (game_after (key ch now g) g)).
Proof.
  intros Hp. destruct (decide (32 ≤ ch ≤ 126)) as [Hch|Hch].
  - destruct (handle_key_printable combining decomposition is_Mn ch now g Hch)
      as (e & _ & _ & ->).
    simpl. apply Forall_app. split; [by destruct (start_time g)|].
    apply Forall_singleton. unfold printable. lia.
  - unfold handle_key.
    case_bool_decide.
    { case_bool_decide; [|done]. simpl. unfold drop_last. by apply Forall_take. }
    case_bool_decide; [done|].
    case_bool_decide; [by destruct (start_time g)|].
    by rewrite bool_decide_eq_false_2.
Qed.

(** The only exception a key raises is the [KeyboardInterrupt] of Ctrl+C. *)
Lemma handle_key_raised ch now g e :
  key ch now g = Raised e -> e = KeyboardInterrupt /\ ch = 3.
Proof.
  destruct (decide (32 ≤ ch ≤ 126)) as [Hch|Hch].
  - destruct (handle_key_printable combining decomposition is_Mn ch now g Hch)
      as (e' & _ & _ & ->). done.
  - unfold handle_key.
    case_bool_decide; [by case_bool_decide|].
    case_bool_decide; [by intros [= <-]|].
    case_bool_decide; [done|].
    by rewrite bool_decide_eq_false_2.
Qed.

Lemma handle_key_break ch now g g' :
  key ch now g = Break g' -> ch = 24.
Proof.
  destruct (decide (32 ≤ ch ≤ 126)) as [Hch|Hch].
  - destruct (handle_key_printable combining decomposition is_Mn ch now g Hch)
      as (e' & _ & _ & ->). done.
  - unfold handle_key.
    case_bool_decide; [by case_bool_decide|].
    case_bool_decide; [done|].
    case_bool_decide; [done|].
    by rewrite bool_decide_eq_false_2.
Qed.

(** How the typing loop can end. *)
Lemma typing_loop_end keys g :
  match (loop keys g).1 with
  | Completed => complete (loop keys g).2 = Ok true
  | Waiting => complete (loop keys g).2 = Ok false
  | Shortcut => exists now, (24, now) ∈ keys
  | Interrupted e => e = KeyboardInterrupt /\ exists now, (3, now) ∈ keys
  end.
Proof.
  revert g. induction keys as [|[ch now] keys IH]; intros g; simpl.
  - destruct (is_complete_cases g) as (b & Hb & _). rewrite Hb.
    by destruct b.
  - destruct (is_complete_cases g) as (b & Hb & _). rewrite Hb.
    destruct b; [done|].
    destruct (key ch now g) as [g'|g'|e] eqn:Hk.
    + specialize (IH g'). destruct ((loop keys g').1); try done.
      * destruct IH as [t Ht]. exists t. by right.
      * destruct IH as [-> [t Ht]]. split; [done|]. exists t. by right.
    + apply handle_key_break in Hk as ->. exists now. by left.
    + apply handle_key_raised in Hk as [-> ->]. simpl.
      split; [done|]. exists now. by left.
Qed.

Lemma typing_loop_keeps keys g :
  quote (loop keys g).2 = quote g /\
  end_time (loop keys g).2 = end_time g /\
  (forall t, start_time g = Some t -> start_time (loop keys g).2 = Some t) /\
  (Forall printable (typed_text g) ->
   Forall printable (typed_text (loop keys g).2)).
Proof.
  revert g. induction keys as [|[ch now] keys IH]; intros g; simpl.
  - by destruct (complete g) as [[]|].
  - destruct (complete g) as [[]|]; try done.
    pose proof (handle_key_quote ch now g) as (Hq & Hn & Hs).
    pose proof (handle_key_typed ch now g) as Hp.
    destruct (key ch now g) as [g'|g'|e]; simpl in *; [|done..].
    destruct (IH g') as (Hq' & Hn' & Hs' & Hp').
    rewrite Hq', Hn', Hq, Hn. repeat split; auto.
Qed.
End LoopFacts.

Section RoundFacts.
Variable combining : codepoint -> N.
Variable decomposition : codepoint -> pystr.
Variable is_Mn : codepoint -> bool.

Local Abbreviation accents := (normalize_accents combining decomposition is_Mn).
Local Abbreviation complete := (is_complete combining decomposition is_Mn).
Local Abbreviation key := (handle_key combining decomposition is_Mn).
Local Abbreviation loop := (typing_loop combining decomposition is_Mn).

(** Typing the rest [r] of the quote after its prefix [p]. *)
Lemma typing_rest r : forall p st times,
  Forall printable r ->
  length times = length r ->
  loop (keys_of r times) (mkGame (p ++ r) p st None 0)
  = (Completed,
     mkGame (p ++ r) (p ++ r)
       (match st with Some t => Some t | None => head times end) None 0).
Proof.
  induction r as [|c r IH]; intros p st times Hp Hlen.
  - destruct times; [|done]. rewrite app_nil_r. simpl.
    rewrite is_complete_same by done. by destruct st.
  - destruct times as [|t times]; [done|]. injection Hlen as Hlen.
    apply Forall_cons in Hp as [Hc Hp]. unfold printable in Hc.
    unfold keys_of. rewrite fmap_cons. cbn [zip zip_with typing_loop].
    rewrite is_complete_short
      by (cbn [typed_text quote]; rewrite length_app; simpl; lia).
    rewrite (handle_key_inside _ _ _ (Z.of_N c) t _ c);
      [|lia|cbn [typed_text quote]; by rewrite lookup_app_r, Nat.sub_diag by lia].
    cbn [typed_text quote start_time end_time errors].
    rewrite N2Z.id. rewrite bool_decide_eq_false_2 by (intros H; by apply H).
    rewrite Z.add_0_r.
    replace (p ++ c :: r) with ((p ++ [c]) ++ r) by (by rewrite <- app_assoc).
    fold (keys_of r times). rewrite IH by done.
    f_equal. f_equal. by destruct st.
Qed.
End RoundFacts.

(** X3: typing a quote of printable characters key by key, from the start
    of a round, completes the round with the typed text equal to the quote,
    no errors, and the clock started at the reading of the first key. *)
Theorem typing_the_quote combining decomposition is_Mn
    (q : pystr) (times : list pyfloat) :
  Forall printable q ->
  length times = length q ->
  typing_loop combining decomposition is_Mn (keys_of q times)
    (reset_for_new_round q)
  = (Completed, mkGame q q (head times) None 0).
Proof.
  intros Hq Hlen.
  exact (typing_rest combining decomposition is_Mn q [] None times Hq Hlen).
Qed.

Lemma typing_the_quote_witness :
  typing_loop UnicodeSample.combining UnicodeSample.decomposition
    UnicodeSample.is_Mn (keys_of (py "ab") [1000; 1001]%float)
    (reset_for_new_round (py "ab"))
  = (Completed, mkGame (py "ab") (py "ab") (Some 1000%float) None 0).
Proof.
  apply (typing_the_quote UnicodeSample.combining UnicodeSample.decomposition
           UnicodeSample.is_Mn (py "ab") [1000; 1001]%float).
  - repeat constructor; unfold printable; simpl; lia.
  - reflexivity.
Defined.

(** X4: the typed text only ever holds printable ASCII characters: if it
    does before the typing loop runs, it does when the loop ends. *)
Theorem typed_text_printable combining decomposition is_Mn keys g :
  Forall printable (typed_text g) ->
  Forall printable
    (typed_text (typing_loop combining decomposition is_Mn keys g).2).
Proof.
  apply (typing_loop_keeps combining decomposition is_Mn keys g).
Qed.

Lemma typed_text_printable_witness :
  Forall printable
    (typed_text
       (typing_loop UnicodeSample.combining UnicodeSample.decomposition
          UnicodeSample.is_Mn corrected_keys fresh_game).2).
Proof.
  apply (typed_text_printable UnicodeSample.combining
           UnicodeSample.decomposition UnicodeSample.is_Mn corrected_keys
           fresh_game).
  constructor.
Defined.

(** A character of the quote that no typed character equals after folding
    keeps the round from completing. *)
Lemma never_completed combining decomposition is_Mn keys g i qc :
  Forall printable (typed_text g) ->
  quote g !! i = Some qc ->
  (forall c, printable c ->
     normalize_accents combining decomposition is_Mn [c]
     <> normalize_accents combining decomposition is_Mn [qc]) ->
  (typing_loop combining decomposition is_Mn keys g).1 <> Completed.
Proof.
  intros Hp Hq Hno Hend.
  pose proof (typing_loop_end combining decomposition is_Mn keys g) as He.
  rewrite Hend in He.
  destruct (typing_loop_keeps combining decomposition is_Mn keys g)
    as (Hquote & _ & _ & Hp').
  specialize (Hp' Hp).
  set (g' := (typing_loop combining decomposition is_Mn keys g).2) in *.
  destruct (is_complete_cases combining decomposition is_Mn g')
    as (b & Hb & Hiff).
  rewrite He in Hb. injection Hb as <-.
  destruct Hiff as [Hiff _]. destruct (Hiff eq_refl) as [Hlen Hall].
  rewrite Hquote in Hlen, Hall.
  apply lookup_lt_Some in Hq as Hi.
  destruct (lookup_lt_is_Some_2 (typed_text g') i) as [tc Htc]; [lia|].
  apply (Hno tc).
  - rewrite Forall_forall in Hp'. apply Hp'.
    by apply list_elem_of_lookup_2 in Htc.
  - apply (Hall i Hi tc qc Htc). by rewrite Hquote.
Qed.

(** X5: a quote that holds a character whose folded form no printable
    ASCII character has can never be completed: whatever keys are pressed,
    the typing loop does not end with the quote complete. *)
Theorem untypable_never_completes combining decomposition is_Mn keys g i qc :
  Forall printable (typed_text g) ->
  quote g !! i = Some qc ->
  (forall c, printable c ->
     normalize_accents combining decomposition is_Mn [c]
     <> normalize_accents combining decomposition is_Mn [qc]) ->
  (typing_loop combining decomposition is_Mn keys g).1 <> Completed.
Proof. apply never_completed. Qed.

Lemma sample_accents_ascii c :
  printable c ->
  normalize_accents UnicodeSample.combining UnicodeSample.decomposition
    UnicodeSample.is_Mn [c] = [c].
Proof.
  unfold printable. intros Hc.
  unfold normalize_accents, normalize_NFD, UnicodeSample.decomposition.
  simpl.
  destruct (N.eqb_spec c 0xE9); [lia|]. destruct (N.eqb_spec c 0xF6); [lia|].
  simpl. rewrite filter_cons_True; [done|].
  unfold UnicodeSample.is_Mn.
  destruct (N.eqb_spec c 0x301); [lia|]. destruct (N.eqb_spec c 0x308); [lia|].
  destruct (N.eqb_spec c 0x34F); [lia|]. done.
Qed.

Lemma untypable_never_completes_witness :
  (typing_loop UnicodeSample.combining UnicodeSample.decomposition
     UnicodeSample.is_Mn (keys_of (py "a-b") [1000; 1001; 1002]%float)
     dash_game).1 <> Completed.
Proof.
  apply (untypable_never_completes UnicodeSample.combining
           UnicodeSample.decomposition UnicodeSample.is_Mn _ dash_game 1%nat
           0x2014%N).
  - constructor.
  - reflexivity.
  - intros c Hc. rewrite sample_accents_ascii by done.
    unfold printable in Hc. intros [= ->]. lia.
Defined.

(** X6: a printable key pressed at a position inside the quote appends its
    character, starts the clock if it was not running, and adds exactly one
    error when the character and the quote character at that position differ
    after diacritic folding, none when they agree. *)
Theorem keystroke_accounting combining decomposition is_Mn ch now g qc :
  32 ≤ ch ≤ 126 ->
  quote g !! length (typed_text g) = Some qc ->
  handle_key combining decomposition is_Mn ch now g
  = Continue
      (mkGame (quote g) (typed_text g ++ [Z.to_N ch])
         (match start_time g with None => Some now | Some t => Some t end)
         (end_time g)
         (errors g
          + if bool_decide
                 (normalize_accents combining decomposition is_Mn [Z.to_N ch]
                  ≠ normalize_accents combining decomposition is_Mn [qc])
            then 1 else 0)).
Proof. apply handle_key_inside. Qed.

Lemma keystroke_accounting_witness :
  handle_key UnicodeSample.combining UnicodeSample.decomposition
    UnicodeSample.is_Mn 101 1005%float
    (mkGame [0x63; 0x61; 0x66; 0xE9]%N (py "caf") (Some 1000%float) None 0)
  = Continue accent_game /\
  handle_key UnicodeSample.combining UnicodeSample.decomposition
    UnicodeSample.is_Mn 120 1000%float fresh_game
  = Continue (mkGame (py "ab") (py "x") (Some 1000%float) None 1).
Proof.
  split.
  - rewrite (keystroke_accounting UnicodeSample.combining
               UnicodeSample.decomposition UnicodeSample.is_Mn 101 1005%float
               _ 0xE9%N); [reflexivity|lia|reflexivity].
  - rewrite (keystroke_accounting UnicodeSample.combining
               UnicodeSample.decomposition UnicodeSample.is_Mn 120 1000%float
               _ 0x61%N); [reflexivity|lia|reflexivity].
Defined.

(** X7: the typing loop never changes the quote or [end_time], and never
    restarts the clock: a [start_time] that is set keeps its value whatever
    keys follow. *)
Theorem typing_loop_preserves combining decomposition is_Mn keys g :
  quote (typing_loop combining decomposition is_Mn keys g).2 = quote g /\
  end_time (typing_loop combining decomposition is_Mn keys g).2 = end_time g /\
  (forall t, start_time g = Some t ->
     start_time (typing_loop combining decomposition is_Mn keys g).2 = Some t).
Proof.
  destruct (typing_loop_keeps combining decomposition is_Mn keys g)
    as (Hq & Hn & Hs & _).
  auto.
Qed.


(** X9: the shortcut pressed as the first key of a round on a non-empty
    quote ends the round at once; the round is then recorded with 0.0 words
    per minute, the tier disaster, and a duration that runs from the
    keypress to the end of the round. *)
Theorem abort_untouched_round combining decomposition is_Mn py_round
    (q : pystr) (t0 t_end t_wpm : pyfloat) keys :
  q <> [] ->
  let r := typing_loop combining decomposition is_Mn ((24, t0) :: keys)
             (reset_for_new_round q) in
  r = (Shortcut, mkGame q [] (Some t0) None 0) /\
  finish_round py_round t_end t_wpm r.2
  = Ok (mkGame q [] (Some t0) (Some t_end) 0,
        mkSummary 0 (t_end - t0) disaster).
Proof.
  intros Hq r.
  assert (Hr : r = (Shortcut, mkGame q [] (Some t0) None 0)).
  { subst r. cbn [typing_loop].
    rewrite is_complete_short; [reflexivity|].
    simpl. destruct q; [done|]. simpl. lia. }
  split; [exact Hr|]. rewrite Hr.
  unfold finish_round, calculate_wpm. cbn [snd start_time set_end_time
    typed_text not_time]. rewrite orb_true_r. reflexivity.
Qed.

Lemma abort_untouched_round_witness :
  finish_round FloatSample.round_half_even 1010 1011
    (typing_loop UnicodeSample.combining UnicodeSample.decomposition
       UnicodeSample.is_Mn [(24, 1000%float)] fresh_game).2
  = Ok (mkGame (py "ab") [] (Some 1000%float) (Some 1010%float) 0,
        mkSummary 0 10 disaster).
Proof.
  destruct (abort_untouched_round UnicodeSample.combining
              UnicodeSample.decomposition UnicodeSample.is_Mn
              FloatSample.round_half_even (py "ab") 1000 1010 1011 [])
    as [_ H]; [discriminate|].
  exact H.
Defined.

(** X10: a round on an empty quote is complete before any key is read: the
    loop returns at once, the clock never starts, and the round is recorded
    with 0.0 words per minute, a duration of 0.0 and the tier disaster. *)
Theorem empty_quote_round combining decomposition is_Mn py_round
    (t_end t_wpm : pyfloat) keys :
  typing_loop combining decomposition is_Mn keys (reset_for_new_round [])
  = (Completed, mkGame [] [] None None 0) /\
  finish_round py_round t_end t_wpm (mkGame [] [] None None 0)
  = Ok (mkGame [] [] None (Some t_end) 0, mkSummary 0 0 disaster).
Proof.
  split; [|reflexivity].
  destruct keys as [|[ch now] keys]; reflexivity.
Qed.

(** ** Historical statistics *)

Lemma foldl_insert_named {B} (f : B -> option pystr * cell) (l : list B)
    (d : dict_row) :
  (forall b k v, f b = (Some k, v) -> forall x, v <> CList x) ->
  (forall b, exists k v, f b = (Some k, v)) ->
  (forall k x, d !! Some k <> Some (CList x)) ->
  forall k x,
    foldl (fun d b => <[(f b).1 := (f b).2]> d) d l !! Some k <> Some (CList x).
Proof.
  intros Hv Hk. revert d. induction l as [|b l IH]; intros d Hd k x; simpl.
  - apply Hd.
  - apply IH. intros k' x'. destruct (Hk b) as (kb & vb & Hb). rewrite Hb.
    simpl. rewrite lookup_insert. case_decide as E; [|apply Hd].
    intros [= ->]. by eapply Hv.
Qed.

(** Under a field name a [DictReader] row holds a field or [None], never a
    list. *)
Lemma dict_reader_row_named fieldnames row k x :
  dict_reader_row fieldnames row !! Some k <> Some (CList x).
Proof.
  unfold dict_reader_row.
  assert (Hzip : forall k x,
    foldl (fun d kv => <[Some kv.1 := CStr kv.2]> d) (∅ : dict_row)
      (zip fieldnames row) !! Some k <> Some (CList x)).
  { intros k' x'.
    apply (foldl_insert_named (fun kv : pystr * pystr => (Some kv.1, CStr kv.2))).
    - by intros b k0 v [= _ <-] y.
    - intros b. by eexists _, _.
    - intros k0 x0. by rewrite lookup_empty. }
  destruct (_ <? _)%nat.
  - rewrite lookup_insert_ne by done. apply Hzip.
  - destruct (_ <? _)%nat; [|apply Hzip].
    apply (foldl_insert_named (fun key : pystr => (Some key, CNone))).
    + by intros b k0 v [= _ <-] y.
    + intros b. by eexists _, _.
    + apply Hzip.
Qed.

Lemma dict_reader_named raw row k x :
  row ∈ dict_reader raw -> row !! Some k <> Some (CList x).
Proof.
  unfold dict_reader. destruct raw as [|h data]; [by intros ?%elem_of_nil|].
  intros (r & -> & _)%list_elem_of_fmap. apply dict_reader_row_named.
Qed.

Lemma tier_of_named row :
  (forall k x, row !! Some k <> Some (CList x)) -> exists k, tier_of row = Ok k.
Proof.
  intros Hrow. unfold tier_of, dict_get.
  destruct (row !! Some (py "tier")) as [[s| |l]|] eqn:E; simpl;
    try (by eexists). by apply Hrow in E.
Qed.

(** The counting loop adds one to the count of each row's key. *)
Lemma count_tiers_spec rows : forall m m',
  count_tiers rows m = Ok m' ->
  forall k, default 0 (m' !! k) = default 0 (m !! k) + rows_with_tier k rows.
Proof.
  unfold rows_with_tier, len.
  induction rows as [|row rows IH]; intros m m' Hm k; simpl in *.
  - injection Hm as <-. lia.
  - fold (tier_of row) in Hm.
    destruct (tier_of row) as [kr|e] eqn:Ek; [|done]. simpl in Hm.
    rewrite (IH _ _ Hm k). rewrite lookup_insert.
    destruct (decide (kr = k)) as [->|Hne].
    + rewrite filter_cons_True by done. simpl length. simpl. lia.
    + rewrite filter_cons_False by congruence. simpl. lia.
Qed.

Lemma count_tiers_total rows : forall m,
  Forall (fun row : dict_row => forall k x, row !! Some k <> Some (CList x)) rows ->
  exists m', count_tiers rows m = Ok m'.
Proof.
  induction rows as [|row rows IH]; intros m Hrows; simpl.
  - by eexists.
  - apply Forall_cons in Hrows as [Hrow Hrows].
    fold (tier_of row). destruct (tier_of_named row Hrow) as [k ->]. simpl.
    by apply IH.
Qed.

Lemma wpm_column_total float_of_str rows :
  Forall (fun row => exists x, read_wpm float_of_str row = Ok x) rows ->
  exists xs, wpm_column float_of_str rows = Ok xs /\ length xs = length rows.
Proof.
  induction 1 as [|row rows [x Hx] _ (xs & Hxs & Hlen)]; simpl.
  - by exists [].
  - rewrite Hx, Hxs. exists (x :: xs). simpl. by rewrite Hlen.
Qed.

Lemma wpm_column_ok float_of_str rows xs :
  wpm_column float_of_str rows = Ok xs ->
  Forall (fun row => exists x, read_wpm float_of_str row = Ok x) rows.
Proof.
  revert xs. induction rows as [|row rows IH]; intros xs Hxs; [done|].
  simpl in Hxs. destruct (read_wpm float_of_str row) as [x|] eqn:Hx; [|done].
  simpl in Hxs. destruct (wpm_column float_of_str rows) as [ys|]; [|done].
  constructor; eauto.
Qed.

(** What a successful [get_historical_stats] went through. *)
Lemma get_historical_stats_some py_round py_sum float_of_str raw st :
  get_historical_stats py_round py_sum float_of_str (Rows raw) = Some st ->
  dict_reader raw <> [] /\
  (exists wpms, wpm_column float_of_str (dict_reader raw) = Ok wpms) /\
  count_tiers (dict_reader raw) ∅ = Ok (tier_counts st) /\
  total_rounds st = len (dict_reader raw).
Proof.
  unfold get_historical_stats, historical_stats_of.
  case_bool_decide as Hn; [done|].
  destruct (wpm_column float_of_str (dict_reader raw)) as [wpms|]; [|done].
  cbn [mbind result_bind].
  destruct (count_tiers (dict_reader raw) ∅) as [counts|]; [|done].
  cbn [mbind result_bind].
  destruct (float_div_int (py_sum wpms) _);
    [|by cbn [mbind result_bind try_except]].
  cbn [mbind result_bind].
  destruct (float_div_int _ _); [|by cbn [mbind result_bind try_except]].
  cbn [mbind result_bind].
  destruct (py_max wpms); [|by cbn [mbind result_bind try_except]].
  cbn [mbind result_bind try_except].
  intros [= <-]. simpl. repeat split; eauto.
  intros Hnil. apply Hn. by rewrite Hnil.
Qed.

(** X11: when [get_historical_stats] returns statistics, [tier_counts]
    holds, for every key, the number of data rows whose tier field is that
    key ([None] for a row too short to have the field, 'unknown' when the
    header has no tier column), and [total_rounds] is the number of data
    rows. *)
Theorem tier_counts_count py_round py_sum float_of_str raw st :
  get_historical_stats py_round py_sum float_of_str (Rows raw) = Some st ->
  total_rounds st = len (dict_reader raw) /\
  forall k, default 0 (tier_counts st !! k) = rows_with_tier k (dict_reader raw).
Proof.
  intros (_ & _ & Hc & Ht)%get_historical_stats_some. split; [done|].
  intros k. rewrite (count_tiers_spec _ _ _ Hc k). by rewrite lookup_empty.
Qed.

Lemma tier_counts_count_witness :
  exists st,
    get_historical_stats FloatSample.round_half_even FloatSample.sum_left
      FloatSample.float_of_decimal
      (append_all FloatSample.round_half_even FloatSample.str_of_float
         sample_records (initialize_stats_file Missing))
    = Some st /\
    default 0 (tier_counts st !! Some (py "disaster")) = 2 /\
    default 0 (tier_counts st !! Some (py "pristine")) = 0.
Proof.
  eexists. split; [vm_compute; reflexivity|].
  match goal with
  | |- context [tier_counts ?s] =>
      destruct (tier_counts_count FloatSample.round_half_even
                  FloatSample.sum_left FloatSample.float_of_decimal
                  [stats_header;
                   stats_row FloatSample.round_half_even
                     FloatSample.str_of_float sample_stamp 60 60 disaster
                     hello_game;
                   stats_row FloatSample.round_half_even
                     FloatSample.str_of_float sample_stamp 60.5 59.5 disaster
                     hello_game] s) as [_ Hk]
  end.
  - vm_compute. reflexivity.
  - rewrite !Hk. split; reflexivity.
Defined.

(** X12: [get_historical_stats] returns statistics exactly when the file
    has at least one data row and the [wpm] field of every data row
    converts to a float; nothing else in a readable file makes it give
    up. *)
Theorem get_historical_stats_succeeds py_round py_sum float_of_str raw :
  (exists st,
     get_historical_stats py_round py_sum float_of_str (Rows raw) = Some st)
  <->
  dict_reader raw <> [] /\
  Forall (fun row => exists x, read_wpm float_of_str row = Ok x)
    (dict_reader raw).
Proof.
  split.
  - intros [st (Hne & [wpms Hw] & _)%get_historical_stats_some].
    split; [done|]. by eapply wpm_column_ok.
  - intros [Hne Hall].
    destruct (wpm_column_total _ _ Hall) as (wpms & Hw & Hlen).
    destruct (count_tiers_total (dict_reader raw) ∅) as [counts Hc].
    { apply Forall_forall. intros row Hrow k x.
      by eapply dict_reader_named. }
    assert (Hpos : (0 < length wpms)%nat).
    { rewrite Hlen. destruct (dict_reader raw); [done|simpl; lia]. }
    destruct (py_max_nonempty wpms) as [best Hbest].
    { intros ->. simpl in Hpos. lia. }
    unfold get_historical_stats, historical_stats_of.
    rewrite bool_decide_eq_false_2
      by (unfold len; rewrite <- Hlen; lia).
    rewrite Hw. cbn [mbind result_bind]. rewrite Hc. cbn [mbind result_bind].
    unfold float_div_int.
    destruct (Z.eqb_spec (len wpms) 0) as [E|_]; [unfold len in E; lia|].
    assert (Hr : (0 < length (recent_of wpms))%nat).
    { rewrite recent_of_drop, recent_length. lia. }
    destruct (Z.eqb_spec (len (recent_of wpms)) 0) as [E|_];
      [unfold len in E; lia|].
    cbn [mbind result_bind]. rewrite Hbest. cbn [mbind result_bind try_except].
    by eexists.
Qed.

(** ** Slices, splitting and joining *)

Lemma py_slice_to {A} (s : list A) (w : Z) :
  0 ≤ w -> py_slice s None (Some w) = take (Z.to_nat w) s.
Proof.
  intros Hw. unfold py_slice, slice_bound, len.
  destruct (Z.ltb_spec w 0); [lia|]. simpl. rewrite Z.sub_0_r.
  change (Z.to_nat 0) with 0%nat. rewrite drop_0.
  destruct (Z.min_spec w (Z.of_nat (length s))) as [[Hlt ->]|[Hge ->]].
  - done.
  - rewrite Nat2Z.id. rewrite !take_ge by lia. done.
Qed.

Lemma py_slice_from {A} (s : list A) (w : Z) :
  0 ≤ w -> py_slice s (Some w) None = drop (Z.to_nat w) s.
Proof.
  intros Hw. unfold py_slice, slice_bound, len.
  destruct (Z.ltb_spec w 0); [lia|].
  destruct (Z.min_spec w (Z.of_nat (length s))) as [[Hlt ->]|[Hge ->]].
  - apply take_ge. rewrite length_drop. lia.
  - rewrite Nat2Z.id, Z.sub_diag. simpl. rewrite !drop_ge by lia. done.
Qed.

Lemma split_on_nonempty sep s : split_on sep s <> [].
Proof. destruct s as [|c s]; simpl; [done|]. destruct (_ =? _)%N; [done|].
  by destruct (split_on sep s). Qed.

Lemma split_on_length sep s :
  Forall (fun w => (length w ≤ length s)%nat) (split_on sep s).
Proof.
  induction s as [|c s IH]; simpl; [by apply Forall_singleton|].
  destruct (_ =? _)%N.
  - constructor; [simpl; lia|]. eapply Forall_impl; [exact IH|].
    simpl. intros; lia.
  - destruct (split_on sep s) as [|w ws];
      [apply Forall_singleton; simpl; lia|].
    apply Forall_cons in IH as [Hw Hws]. constructor; [simpl; lia|].
    eapply Forall_impl; [exact Hws|]. simpl. intros; lia.
Qed.

(** Joining the pieces of a split with the separator gives the text
    back. *)
Lemma join_split_on sep s : join [sep] (split_on sep s) = s.
Proof.
  induction s as [|c s IH]; [reflexivity|]. simpl.
  pose proof (split_on_nonempty sep s) as Hne.
  destruct (N.eqb_spec c sep) as [->|Hc].
  - destruct (split_on sep s) as [|w ws]; [done|]. simpl. simpl in IH.
    by rewrite IH.
  - destruct (split_on sep s) as [|w ws]; [done|].
    destruct ws as [|w' ws]; simpl in *; by rewrite IH.
Qed.

Lemma join_cons sep x y l :
  join sep (x :: y :: l) = x ++ sep ++ join sep (y :: l).
Proof. reflexivity. Qed.

(** A separator inside an element or between two elements: the joined text
    is the same. *)
Lemma join_merge sep l x y rest :
  join sep (l ++ (x ++ sep ++ y) :: rest) = join sep (l ++ x :: y :: rest).
Proof.
  induction l as [|a l IH].
  - destruct rest as [|z rest]; simpl; [done|]. by rewrite <- !app_assoc.
  - destruct l as [|b l]; simpl in *; by rewrite IH.
Qed.

(** ** Wrapping *)

Section WrapFacts.
Variable width : Z.
Hypothesis width_pos : 1 ≤ width.

Local Abbreviation fits := (fun l : pystr => 1 ≤ len l ≤ width).

Lemma break_word_ok fuel : forall lines word,
  (length word ≤ fuel)%nat ->
  Forall fits lines ->
  exists lines' w',
    break_word fuel width lines word = Some (lines', w') /\
    Forall fits lines' /\ len w' ≤ width /\ (word <> [] -> w' <> []).
Proof.
  induction fuel as [|fuel IH]; intros lines word Hlen Hlines.
  - destruct word; [|simpl in Hlen; lia]. simpl.
    rewrite bool_decide_eq_false_2 by (unfold len; simpl; lia).
    exists lines, []. unfold len. simpl. repeat split; auto; lia.
  - simpl. case_bool_decide as Hlong.
    + rewrite py_slice_to, py_slice_from by lia.
      unfold len in Hlong.
      destruct (IH (lines ++ [take (Z.to_nat width) word])
                  (drop (Z.to_nat width) word))
        as (lines' & w' & -> & Hl' & Hw' & Hne').
      * rewrite length_drop. lia.
      * apply Forall_app. split; [done|]. apply Forall_singleton.
        unfold len. rewrite length_take. lia.
      * exists lines', w'. repeat split; auto. intros _. apply Hne'.
        intros Hnil. apply (f_equal length) in Hnil.
        rewrite length_drop in Hnil. simpl in Hnil. lia.
    + exists lines, word. repeat split; auto; lia.
Qed.

Lemma start_line_ok fuel lines word :
  (length word ≤ fuel)%nat ->
  Forall fits lines ->
  exists lines' w',
    start_line fuel width lines word = Some (lines', w') /\
    Forall fits lines' /\ len w' ≤ width /\ (word <> [] -> w' <> []).
Proof.
  intros Hlen Hlines. unfold start_line. case_bool_decide.
  - exists lines, word. repeat split; auto.
  - by apply break_word_ok.
Qed.

Lemma wrap_word_ok fuel lines cur word :
  (length word ≤ fuel)%nat ->
  Forall fits lines -> len cur ≤ width ->
  exists lines' cur',
    wrap_word fuel width (lines, cur) word = Some (lines', cur') /\
    Forall fits lines' /\ len cur' ≤ width.
Proof.
  intros Hlen Hlines Hcur. unfold wrap_word. case_bool_decide as Hempty.
  - destruct (start_line_ok fuel lines word) as (l' & c' & -> & ? & ? & _);
      eauto.
  - case_bool_decide as Hfit; [by eexists _, _|].
    destruct (start_line_ok fuel (lines ++ [cur]) word)
      as (l' & c' & -> & ? & ? & _); eauto.
    apply Forall_app. split; [done|]. apply Forall_singleton.
    unfold len in *. destruct cur; [done|]. simpl. simpl in Hcur. lia.
Qed.

Lemma wrap_words_ok fuel words : forall lines cur,
  Forall (fun w => (length w ≤ fuel)%nat) words ->
  Forall fits lines -> len cur ≤ width ->
  exists lines' cur',
    wrap_words fuel width (lines, cur) words = Some (lines', cur') /\
    Forall fits lines' /\ len cur' ≤ width.
Proof.
  induction words as [|w words IH]; intros lines cur Hws Hlines Hcur;
    cbn [wrap_words].
  - by eexists _, _.
  - apply Forall_cons in Hws as [Hw Hws].
    destruct (wrap_word_ok fuel lines cur w) as (l' & c' & -> & ? & ?); auto.
    cbn [mbind option_bind]. by apply IH.
Qed.

(** Words that fit and are not empty are laid out without losing a
    character: the lines, joined by single spaces, are the words joined by
    single spaces. *)
Lemma wrap_words_join fuel words : forall lines cur,
  cur <> [] ->
  Forall (fun w => w <> [] /\ len w ≤ width) words ->
  exists lines' cur',
    wrap_words fuel width (lines, cur) words = Some (lines', cur') /\
    cur' <> [] /\
    join [32%N] (lines' ++ [cur']) = join [32%N] (lines ++ cur :: words).
Proof.
  induction words as [|w words IH]; intros lines cur Hcur Hws; simpl.
  - by eexists _, _.
  - apply Forall_cons in Hws as [[Hw Hlen] Hws].
    rewrite bool_decide_eq_false_2 by done.
    case_bool_decide as Hfit; simpl.
    + destruct (IH lines (cur ++ 32%N :: w)) as (l' & c' & -> & ? & Hj);
        [by destruct cur|done|].
      exists l', c'. repeat split; auto. rewrite Hj.
      apply (join_merge [32%N] lines cur w words).
    + unfold start_line. rewrite bool_decide_eq_true_2 by done. simpl.
      destruct (IH (lines ++ [cur]) w) as (l' & c' & -> & ? & Hj); auto.
      exists l', c'. repeat split; auto. rewrite Hj.
      by rewrite <- app_assoc.
Qed.
End WrapFacts.

(** X13: for a width of at least 1, [wrap_text_preserve_chars] terminates
    (as many rounds of its inner loop as the text has characters are
    enough), and every line it returns is non-empty and at most [width]
    characters long. *)
Theorem wrap_lines_fit (fuel : nat) (text : pystr) (width : Z) :
  1 ≤ width ->
  (length text ≤ fuel)%nat ->
  exists lines,
    wrap_text_preserve_chars fuel text width = Some lines /\
    Forall (fun l => 1 ≤ len l ≤ width) lines.
Proof.
  intros Hw Hfuel. unfold wrap_text_preserve_chars.
  case_bool_decide; [by exists []|].
  destruct (wrap_words_ok width Hw fuel (split_on 32 text) [] [])
    as (lines & cur & -> & Hlines & Hcur).
  - eapply Forall_impl; [apply split_on_length|]. simpl. intros; lia.
  - constructor.
  - unfold len. simpl. lia.
  - simpl. eexists. split; [done|]. case_bool_decide as Hne; [|done].
    apply Forall_app. split; [done|]. apply Forall_singleton.
    unfold len in *. destruct cur; [done|]. simpl. simpl in Hcur. lia.
Qed.

Lemma wrap_lines_fit_witness :
  exists lines,
    wrap_text_preserve_chars 13 (py "abcdefghij kl") 4 = Some lines /\
    Forall (fun l => 1 ≤ len l ≤ 4) lines.
Proof.
  apply (wrap_lines_fit 13 (py "abcdefghij kl") 4); [lia|simpl; lia].
Defined.

(** X14: when the words of a text (its pieces between single spaces) are
    all non-empty and no longer than the width, wrapping loses nothing: the
    returned lines, joined by single spaces, are the text.  This holds
    whatever the bound on the inner loop, which is never entered. *)
Theorem wrap_preserves_text (fuel : nat) (text : pystr) (width : Z) :
  Forall (fun w => w <> [] /\ len w ≤ width) (split_on 32 text) ->
  exists lines,
    wrap_text_preserve_chars fuel text width = Some lines /\
    join [32%N] lines = text.
Proof.
  intros Hwords. unfold wrap_text_preserve_chars.
  destruct (split_on 32 text) as [|w words] eqn:Hsplit;
    [by apply split_on_nonempty in Hsplit|].
  apply Forall_cons in Hwords as [[Hne Hlen] Hwords].
  case_bool_decide as Htext.
  { rewrite Htext in Hsplit. simpl in Hsplit. injection Hsplit as <- _. done. }
  cbn [wrap_words wrap_word]. rewrite bool_decide_eq_true_2 by done.
  unfold start_line. rewrite bool_decide_eq_true_2 by done.
  cbn [mbind option_bind].
  destruct (wrap_words_join width fuel words [] w Hne Hwords)
    as (lines & cur & -> & Hcur & Hj).
  cbn [mbind option_bind fst snd].
  rewrite bool_decide_eq_true_2 by done.
  eexists. split; [done|]. rewrite Hj. simpl app.
  rewrite <- Hsplit. apply join_split_on.
Qed.

Lemma wrap_preserves_text_witness :
  exists lines,
    wrap_text_preserve_chars 0 (py "the quick brown fox") 10 = Some lines /\
    join [32%N] lines = py "the quick brown fox".
Proof.
  apply (wrap_preserves_text 0 (py "the quick brown fox") 10).
  repeat constructor; (discriminate || (vm_compute; discriminate)).
Defined.

(** X15: [center_text] only draws inside the window: when it draws, the row
    is the requested row and lies in [0 .. height), the text starts at a
    column [x >= 0] and ends at or before column [width]; a text that fits
    is drawn whole, with left and right margins that differ by at most
    one. *)
Theorem center_text_in_window (height width y : Z) (text : pystr) y' x t :
  0 ≤ width ->
  center_text height width y text = Some (y', x, t) ->
  y' = y /\ 0 ≤ y < height /\ 0 ≤ x /\ x + len t ≤ width /\
  (len text ≤ width -> t = text /\ 0 ≤ (width - len t - x) - x ≤ 1).
Proof.
  intros Hw. unfold center_text. case_bool_decide as Hy; [done|].
  intros [= <- <- <-]. rewrite py_slice_to by done.
  assert (Hlen : len (take (Z.to_nat width) text) = Z.min width (len text)).
  { unfold len. rewrite length_take. lia. }
  rewrite Hlen. split; [done|]. split; [lia|]. split; [lia|].
  pose proof (Z.div_mod (width - len text) 2 ltac:(lia)) as Hdiv.
  pose proof (Z.mod_pos_bound (width - len text) 2 ltac:(lia)) as Hmod.
  split; [lia|]. intros Hfit. split.
  - apply take_ge. unfold len in Hfit. lia.
  - lia.
Qed.

Lemma center_text_in_window_witness :
  center_text 24 80 3 (py "TYPERACER") = Some (3, 35, py "TYPERACER") /\
  35 + len (py "TYPERACER") ≤ 80.
Proof.
  destruct (center_text_in_window 24 80 3 (py "TYPERACER") 3 35
              (py "TYPERACER")) as (_ & _ & _ & H & _);
    [lia|reflexivity|].
  split; [reflexivity|exact H].
Defined.

(** ** Trimming a book ([fetcher.py]) *)

Lemma len_nonneg_Z {A} (s : list A) : 0 ≤ len s.
Proof. unfold len. lia. Qed.

Lemma py_slice_middle {A} (s : list A) (a b : Z) :
  0 ≤ a -> 0 < b -> a + b ≤ len s ->
  py_slice s (Some a) (Some (- b))
  = take (Z.to_nat (len s - a - b)) (drop (Z.to_nat a) s).
Proof.
  intros Ha Hb Hlen. unfold py_slice, slice_bound.
  destruct (Z.ltb_spec a 0); [lia|]. destruct (Z.ltb_spec (- b) 0); [|lia].
  rewrite Z.min_l, Z.max_l by lia. f_equal. lia.
Qed.

(** X16: with a non-negative [skip_start_chars] and a positive
    [skip_end_chars], [trim_book_content] has three regimes: a book at least
    as long as both together loses exactly its first [skip_start_chars] and
    its last [skip_end_chars] characters; a shorter book that is longer than
    [skip_start_chars] loses only its beginning and keeps its end; a book no
    longer than [skip_start_chars] is returned whole. *)
Theorem trim_book_content_regimes (a b : Z) (text : pystr) :
  0 ≤ a -> 0 < b ->
  (a + b ≤ len text ->
   text = take (Z.to_nat a) text ++ trim_book_content a b text
          ++ drop (Z.to_nat (len text - b)) text /\
   len (trim_book_content a b text) = len text - a - b) /\
  (a < len text < a + b ->
   trim_book_content a b text = drop (Z.to_nat a) text) /\
  (len text ≤ a -> trim_book_content a b text = text).
Proof.
  intros Ha Hb. unfold trim_book_content. repeat split.
  - rewrite bool_decide_eq_false_2 by lia. rewrite py_slice_middle by lia.
    rewrite <- (take_drop (Z.to_nat a) text) at 1. f_equal.
    rewrite <- (take_drop (Z.to_nat (len text - a - b))
                  (drop (Z.to_nat a) text)) at 1.
    f_equal. rewrite drop_drop. f_equal. unfold len in *. lia.
  - rewrite bool_decide_eq_false_2 by lia. rewrite py_slice_middle by lia.
    unfold len in *. rewrite length_take, length_drop. lia.
  - intros [Hlo Hhi]. rewrite bool_decide_eq_true_2 by lia.
    rewrite bool_decide_eq_true_2 by lia. by apply py_slice_from.
  - intros Hshort. rewrite bool_decide_eq_true_2 by lia.
    by rewrite bool_decide_eq_false_2 by lia.
Qed.

Lemma trim_book_content_regimes_witness :
  trim_book_content 2 3 (py "abcdefghij") = py "cdefg" /\
  trim_book_content 2 30 (py "abcdefghij") = py "cdefghij" /\
  trim_book_content 20 30 (py "abcdefghij") = py "abcdefghij".
Proof.
  destruct (trim_book_content_regimes 2 3 (py "abcdefghij")) as (_ & _ & _);
    [lia|lia|].
  destruct (trim_book_content_regimes 2 30 (py "abcdefghij"))
    as (_ & Hb & _); [lia|lia|].
  destruct (trim_book_content_regimes 20 30 (py "abcdefghij"))
    as (_ & _ & Hc); [lia|lia|].
  split; [reflexivity|]. split.
  - rewrite Hb; [reflexivity|]. unfold len. simpl. lia.
  - apply Hc. unfold len. simpl. lia.
Defined.

(** X17: with [skip_end_chars = 0] the slice [text[skip_start:-0]] is
    empty: every book at least [skip_start_chars] long is trimmed to the
    empty string (from which no quote is extracted), whereas the same book
    with [skip_end_chars = 1] keeps all but its last character after the
    start. *)
Theorem trim_book_content_zero_end (a : Z) (text : pystr) :
  0 ≤ a -> a ≤ len text ->
  trim_book_content a 0 text = [] /\
  (a + 1 ≤ len text ->
   len (trim_book_content a 1 text) = len text - a - 1).
Proof.
  intros Ha Hlen. unfold trim_book_content. split.
  - rewrite bool_decide_eq_false_2 by lia.
    unfold py_slice, slice_bound. simpl.
    destruct (Z.ltb_spec a 0); [lia|].
    rewrite (Z.min_l a) by lia. rewrite (Z.min_l 0) by apply len_nonneg_Z.
    replace (Z.to_nat (0 - a)) with 0%nat by lia. done.
  - intros H1. rewrite bool_decide_eq_false_2 by lia.
    rewrite py_slice_middle by lia. unfold len in *.
    rewrite length_take, length_drop. lia.
Qed.

Lemma trim_book_content_zero_end_witness :
  trim_book_content 2 0 (py "abcdefghij") = [] /\
  len (trim_book_content 2 1 (py "abcdefghij")) = 7.
Proof.
  destruct (trim_book_content_zero_end 2 (py "abcdefghij")) as [H0 H1];
    [lia|unfold len; simpl; lia|].
  split; [exact H0|]. rewrite H1; [reflexivity|]. unfold len. simpl. lia.
Defined.

(** ** Whitespace *)

Lemma lstrip_spaces w s :
  Forall (fun c => isspace c = true) w -> lstrip (w ++ s) = lstrip s.
Proof. induction 1 as [|c w Hc _ IH]; simpl; [done|]. by rewrite Hc. Qed.

Lemma lstrip_visible c s : isspace c = false -> lstrip (c :: s) = c :: s.
Proof. intros Hc. simpl. by rewrite Hc. Qed.




Lemma rstrip_snoc_visible s c :
  isspace c = false -> rstrip (s ++ [c]) = s ++ [c].
Proof.
  intros Hc. unfold rstrip. rewrite reverse_snoc, lstrip_visible by done.
  by rewrite reverse_cons, reverse_involutive.
Qed.


(** ** Matching the metadata tags *)

Lemma re_match_lits hdr r s :
  re_match (lits hdr ++ r) (hdr ++ s)
  = (fun m => ((fun c => [c]) <$> hdr) ++ m) <$> re_match r s.
Proof.
  induction hdr as [|c hdr IH]; simpl.
  - by destruct (re_match r s).
  - rewrite N.eqb_refl. fold (lits hdr). rewrite IH.
    by destruct (re_match r s).
Qed.

Lemma re_match_star p r s :
  re_match (mkAtom p ZeroOrMore :: r) s = re_star p (re_match r) s.
Proof. reflexivity. Qed.

(** A pattern that starts with a literal does not match where the text
    starts with another character. *)
Lemma re_search_skip c0 r u s :
  Forall (fun c => c <> c0) u ->
  re_search (lit c0 :: r) (u ++ s) = re_search (lit c0 :: r) s.
Proof.
  induction 1 as [|c u Hc _ IH]; [done|].
  cbn [app re_search re_match lit quant accepts].
  destruct (N.eqb_spec c0 c) as [->|_]; [done|]. exact IH.
Qed.

Section TagFacts.
Variable rest : pystr.

Local Abbreviation close := (lits [93; 93]%N).
Local Abbreviation not_bracket := (fun c : codepoint => negb (c =? 93)%N).
Local Abbreviation group_tail :=
  (mkAtom not_bracket OneOrMore :: close).

(** After the run [g] of the group comes the closing [\]\]]. *)
Lemma re_star_group g :
  Forall (fun c => c <> 93%N) g ->
  re_star not_bracket (re_match close) (g ++ 93%N :: 93%N :: rest)
  = Some [g; [93%N]; [93%N]].
Proof.
  induction 1 as [|c g Hc _ IH]; [reflexivity|].
  cbn [app re_star]. rewrite IH.
  destruct (N.eqb_spec c 93) as [->|_]; [done|]. reflexivity.
Qed.

Lemma re_match_group g :
  g <> [] ->
  Forall (fun c => c <> 93%N) g ->
  re_match group_tail (g ++ 93%N :: 93%N :: rest)
  = Some [g; [93%N]; [93%N]].
Proof.
  intros Hne Hg. destruct g as [|c g]; [done|].
  apply Forall_cons in Hg as [Hc Hg].
  cbn [app re_match quant accepts].
  destruct (N.eqb_spec c 93) as [->|_]; [done|]. cbn [negb].
  fold close. rewrite (re_star_group g Hg). reflexivity.
Qed.

Lemma re_match_group_bracket :
  re_match group_tail (93%N :: 93%N :: rest) = None.
Proof. reflexivity. Qed.

(** The [\s*] before the group takes the leading whitespace of the run, and
    gives one character back when the run is all whitespace. *)
Lemma re_star_spaces run :
  run <> [] ->
  Forall (fun c => c <> 93%N) run ->
  exists w g,
    re_star isspace (re_match group_tail) (run ++ 93%N :: 93%N :: rest)
    = Some [w; g; [93%N]; [93%N]] /\
    w ++ g = run /\ Forall (fun c => isspace c = true) w /\ g <> [].
Proof.
  induction run as [|c run IH]; [done|]. intros _ Hrun.
  apply Forall_cons in Hrun as [Hc Hrun].
  assert (Hstop : cons [] <$> re_match group_tail
                              (c :: run ++ 93%N :: 93%N :: rest)
                  = Some [[]; c :: run; [93%N]; [93%N]]).
  { change (c :: run ++ 93%N :: 93%N :: rest)
      with ((c :: run) ++ 93%N :: 93%N :: rest).
    rewrite re_match_group; [done|done|by constructor]. }
  cbn [re_star app]. rewrite Hstop.
  destruct (isspace c) eqn:Hsp.
  - destruct run as [|d run].
    + cbn [app].
      assert (re_star isspace (re_match group_tail) (93%N :: 93%N :: rest) = None)
        as -> by reflexivity.
      cbn [grow]. exists [], [c]. repeat split; auto.
    + destruct (IH ltac:(done) Hrun) as (w & g & -> & Hwg & Hw & Hg).
      cbn [grow]. exists (c :: w), g. repeat split; auto.
      * simpl. by rewrite Hwg.
  - exists [], (c :: run). repeat split; auto.
Qed.
End TagFacts.

(** The match of a tag pattern on the tag written with the value [value]:
    the group is the value up to leading whitespace. *)
Lemma re_match_tag tag value rest :
  Forall (fun c => c <> 93%N) value ->
  exists m,
    re_match (tag_pattern tag)
      (([91; 91]%N ++ tag ++ [58%N]) ++ 32%N :: value ++ 93%N :: 93%N :: rest)
    = Some m /\
    strip (tag_group tag m) = strip value.
Proof.
  intros Hv. unfold tag_pattern. rewrite re_match_lits.
  cbn [app]. rewrite re_match_star.
  destruct (re_star_spaces rest (32%N :: value)) as (w & g & Hm & Hwg & Hw & Hg);
    [done|by constructor|].
  cbn [app] in Hm. rewrite Hm. eexists. split; [reflexivity|].
  unfold tag_group.
  assert (Hlook : forall hdr : list pystr,
            length hdr = (length tag + 3)%nat ->
            (hdr ++ [w; g; [93%N]; [93%N]]) !! (length tag + 4)%nat = Some g).
  { intros hdr Hh. rewrite lookup_app_r by lia.
    by replace (length tag + 4 - length hdr)%nat with 1%nat by lia. }
  rewrite Hlook
    by (rewrite length_fmap; simpl; rewrite length_app; simpl; lia).
  simpl default.  change (32%N :: value) with ([32%N] ++ value) in Hwg.
  unfold strip.
  rewrite <- (lstrip_spaces [32%N] value) by (by repeat constructor).
  rewrite <- Hwg. by rewrite lstrip_spaces.
Qed.

(** ** Quote files: what [fetcher.py] writes and [typer.py] reads *)

Lemma re_search_here r s m : re_match r s = Some m -> re_search r s = Some m.
Proof. intros H. destruct s; simpl; by rewrite H. Qed.

Lemma re_search_next r c s :
  re_match r (c :: s) = None -> re_search r (c :: s) = re_search r s.
Proof. intros H. cbn [re_search]. by rewrite H. Qed.

Lemma format_metadata_line_shape m :
  format_metadata_line m
  = ([91; 91]%N ++ py "BOOK" ++ [58%N]) ++ 32%N :: title m
    ++ 93%N :: 93%N
    :: (([91; 91]%N ++ py "AUTHOR" ++ [58%N]) ++ 32%N :: author m
        ++ 93%N :: 93%N :: []).
Proof.
  unfold format_metadata_line.
  change (py "[[BOOK: ") with (([91; 91]%N ++ py "BOOK" ++ [58%N]) ++ [32%N]).
  change (py "]][[AUTHOR: ")
    with ([93; 93]%N ++ ([91; 91]%N ++ py "AUTHOR" ++ [58%N]) ++ [32%N]).
  change (py "]]") with [93; 93]%N.
  by rewrite <- !app_assoc.
Qed.

Lemma format_metadata_line_ends m :
  exists body, format_metadata_line m = 91%N :: body ++ [93%N].
Proof.
  unfold format_metadata_line.
  exists (py "[BOOK: " ++ title m ++ py "]][[AUTHOR: " ++ author m ++ [93%N]).
  change (py "[[BOOK: ") with (91%N :: py "[BOOK: ").
  change (py "]]") with ([93%N] ++ [93%N]).
  by rewrite <- !app_assoc.
Qed.

Lemma strip_format_metadata_line m :
  strip (format_metadata_line m) = format_metadata_line m.
Proof.
  destruct (format_metadata_line_ends m) as [body ->]. unfold strip.
  rewrite lstrip_visible by done.
  change (91%N :: body ++ [93%N]) with ((91%N :: body) ++ [93%N]).
  by apply rstrip_snoc_visible.
Qed.

(** The two searches of [parse_metadata] on a line that
    [format_metadata_line] wrote. *)
Lemma search_tags m :
  Forall (fun c => c <> 91%N /\ c <> 93%N) (title m) ->
  Forall (fun c => c <> 93%N) (author m) ->
  (exists b, re_search (tag_pattern (py "BOOK")) (format_metadata_line m)
             = Some b /\
             strip (tag_group (py "BOOK") b) = strip (title m)) /\
  (exists a, re_search (tag_pattern (py "AUTHOR")) (format_metadata_line m)
             = Some a /\
             strip (tag_group (py "AUTHOR") a) = strip (author m)).
Proof.
  intros Ht Ha. rewrite format_metadata_line_shape. split.
  - destruct (re_match_tag (py "BOOK") (title m)
                (([91; 91]%N ++ py "AUTHOR" ++ [58%N]) ++ 32%N :: author m
                 ++ 93%N :: 93%N :: []))
      as (b & Hb & Hg).
    { eapply Forall_impl; [exact Ht|]. simpl. tauto. }
    exists b. split; [by apply re_search_here|done].
  - destruct (re_match_tag (py "AUTHOR") (author m) []) as (a & Hm & Hg);
      [done|].
    exists a. split; [|done].
    rewrite <- (re_search_here _ _ _ Hm).
    set (tail := ([91; 91]%N ++ py "AUTHOR" ++ [58%N]) ++ 32%N :: author m
                 ++ 93%N :: 93%N :: []).
    change (([91; 91]%N ++ py "BOOK" ++ [58%N]) ++ 32%N :: title m
            ++ 93%N :: 93%N :: tail)
      with (91%N :: 91%N :: (py "BOOK: " ++ title m ++ 93%N :: 93%N :: tail)).
    rewrite re_search_next by reflexivity.
    rewrite re_search_next by reflexivity.
    replace (py "BOOK: " ++ title m ++ 93%N :: 93%N :: tail)
      with ((py "BOOK: " ++ title m ++ [93; 93]%N) ++ tail)
      by (by rewrite <- !app_assoc).
    apply (re_search_skip 91).
    apply Forall_app. split; [by repeat constructor|].
    apply Forall_app. split; [|by repeat constructor].
    eapply Forall_impl; [exact Ht|]. simpl. tauto.
Qed.

Lemma getitem_second {A} (x y : A) : getitem [x; y] 1 = Ok y.
Proof. reflexivity. Qed.

Lemma parse_metadata_written q m :
  Forall (fun c => c <> 91%N /\ c <> 93%N) (title m) ->
  Forall (fun c => c <> 93%N) (author m) ->
  parse_metadata [q; format_metadata_line m]
  = strip (title m) ++ middle_dot ++ strip (author m).
Proof.
  intros Ht Ha. unfold parse_metadata.
  rewrite bool_decide_eq_false_2 by (unfold len; simpl; lia).
  rewrite getitem_second. rewrite strip_format_metadata_line.
  rewrite bool_decide_eq_false_2.
  2:{ destruct (format_metadata_line_ends m) as [body ->]. done. }
  destruct (search_tags m Ht Ha) as [(b & -> & Hb) (a & -> & Hau)].
  rewrite Hb, Hau. simpl app.
  rewrite bool_decide_eq_true_2 by done. reflexivity.
Qed.

(** X18: the metadata line that [format_metadata_line] writes for a title
    without square brackets and an author without a closing bracket is read
    back by [parse_metadata] as the title and the author, each stripped of
    surrounding whitespace, joined by the middle-dot separator. *)
Theorem parse_metadata_round_trip (q : pystr) (m : BookMetadata) :
  Forall (fun c => c <> 91%N /\ c <> 93%N) (title m) ->
  Forall (fun c => c <> 93%N) (author m) ->
  parse_metadata [q; format_metadata_line m]
  = strip (title m) ++ middle_dot ++ strip (author m).
Proof. apply parse_metadata_written. Qed.

Lemma parse_metadata_round_trip_witness :
  parse_metadata
    [py "Call me Ishmael.";
     format_metadata_line (mkMetadata (py "Moby Dick") (py " H. Melville "))]
  = py "Moby Dick" ++ middle_dot ++ py "H. Melville".
Proof.
  rewrite (parse_metadata_round_trip (py "Call me Ishmael.")
             (mkMetadata (py "Moby Dick") (py " H. Melville "))).
  - reflexivity.
  - repeat constructor; discriminate.
  - repeat constructor; discriminate.
Defined.









(** ** Drawing the quote *)

Lemma getitem_middle {A} (pre : list A) (c : A) (post : list A) :
  getitem (pre ++ c :: post) (len pre) = Ok c.
Proof.
  unfold getitem, len.
  destruct (Z.ltb_spec (Z.of_nat (length pre)) 0); [lia|].
  destruct (Z.ltb_spec (Z.of_nat (length pre)) 0); [lia|].
  rewrite Nat2Z.id, lookup_app_r by lia.
  by rewrite Nat.sub_diag.
Qed.

Lemma len_app {A} (s t : list A) : len (s ++ t) = len s + len t.
Proof. unfold len. rewrite length_app. lia. Qed.

Lemma len_cons {A} (c : A) (s : list A) : len (c :: s) = 1 + len s.
Proof. unfold len. simpl. lia. Qed.

Section RenderFacts.
Variable combining : codepoint -> N.
Variable decomposition : codepoint -> pystr.
Variable is_Mn : codepoint -> bool.

Local Abbreviation style := (style_at combining decomposition is_Mn).
Local Abbreviation line_loop := (render_line combining decomposition is_Mn).
Local Abbreviation lines_loop := (render_lines combining decomposition is_Mn).

Lemma style_at_total g i c : 0 ≤ i -> exists st, style g i c = Ok st.
Proof.
  intros Hi. unfold style_at. case_bool_decide; [|by eexists].
  destruct (getitem_in_range (typed_text g) i) as (tc & _ & ->); [lia|].
  simpl. by eexists.
Qed.

(** One row: the characters [cs] of the quote that start at index
    [len pre] are drawn from column [start_x + k] on, one per column. *)
Lemma render_line_ok g width y start_x cs : forall pre post k,
  quote g = pre ++ cs ++ post ->
  0 ≤ start_x -> 0 ≤ k -> start_x + k + len cs ≤ width ->
  exists ds,
    line_loop g width y start_x (seqZ k (len cs)) (len pre)
    = Ok (len pre + len cs, ds)
    /\ draw_char <$> ds = cs
    /\ forall (j : nat) d, ds !! j = Some d ->
         draw_y d = y /\ start_x ≤ draw_x d < width
         /\ quote g !! Z.to_nat (len pre + Z.of_nat j) = Some (draw_char d)
         /\ style g (len pre + Z.of_nat j) (draw_char d) = Ok (draw_style d).
Proof.
  induction cs as [|c cs IH]; intros pre post k Hq Hx Hk Hw.
  - exists []. simpl. rewrite Z.add_0_r. repeat split; try done.
  - rewrite len_cons in *.
    rewrite seqZ_cons by (pose proof (len_nonneg_Z cs); lia).
    replace (Z.pred (1 + len cs)) with (len cs) by lia.
    cbn [render_line].
    rewrite bool_decide_eq_false_2.
    2:{ rewrite Hq, !len_app, len_cons.
        pose proof (len_nonneg_Z post). pose proof (len_nonneg_Z cs). lia. }
    pose proof (len_nonneg_Z cs) as Hcs.
    rewrite bool_decide_eq_false_2 by lia.
    assert (Hget : getitem (quote g) (len pre) = Ok c).
    { rewrite Hq. simpl. apply getitem_middle. }
    rewrite Hget.
    destruct (style_at_total g (len pre) c) as [st Hst];
      [apply len_nonneg_Z|].
    cbn [mbind result_bind]. rewrite Hst. cbn [mbind result_bind].
    destruct (IH (pre ++ [c]) post (Z.succ k)) as (ds & Hds & Hchars & Hall);
      [by rewrite <- app_assoc | lia | lia | lia |].
    rewrite len_app in Hds. change (len [c]) with 1 in Hds.
    rewrite Hds. cbn [mbind result_bind fst snd].
    eexists. split; [f_equal; f_equal; lia|].
    split; [by rewrite fmap_cons, Hchars|].
    intros [|j] d Hd.
    + injection Hd as <-. simpl. rewrite Z.add_0_r.
      repeat split; try lia; [|done].
      rewrite Hq. unfold len. rewrite Nat2Z.id.
      rewrite lookup_app_r by lia. by rewrite Nat.sub_diag.
    + simpl in Hd. destruct (Hall j d Hd) as (Hy & Hxd & Hqd & Hsd).
      rewrite len_app in Hqd, Hsd. change (len [c]) with 1 in Hqd, Hsd.
      replace (len pre + Z.of_nat (S j)) with (len pre + 1 + Z.of_nat j) by lia.
      repeat split; try done; lia.
Qed.

(** All rows: line number [i] starts at the index [len pre] of the quote,
    and what is left of the quote is the lines joined by single spaces. *)
Lemma render_lines_ok g height width start_y n lines : forall pre i,
  quote g = pre ++ join [32%N] lines ->
  Forall (fun line => len line ≤ width) lines ->
  0 ≤ i -> n = i + len lines -> start_y + n ≤ height ->
  exists ds,
    lines_loop g height width start_y n i lines (len pre) = Ok ds
    /\ draw_char <$> ds = concat lines
    /\ forall (k : nat) d, ds !! k = Some d ->
         start_y + i ≤ draw_y d < start_y + n
         /\ 0 ≤ draw_x d < width
         /\ quote g !! Z.to_nat (len pre + Z.of_nat k + (draw_y d - (start_y + i)))
            = Some (draw_char d)
         /\ style g (len pre + Z.of_nat k + (draw_y d - (start_y + i))) (draw_char d)
            = Ok (draw_style d).
Proof.
  induction lines as [|line rest IH]; intros pre i Hq Hfit Hi Hn Hh.
  - exists []. simpl. repeat split; done.
  - rewrite len_cons in Hn. pose proof (len_nonneg_Z rest) as Hrest.
    pose proof (len_nonneg_Z line) as Hline.
    apply Forall_cons in Hfit as [Hl Hfit].
    cbn [render_lines].
    rewrite bool_decide_eq_false_2 by lia.
    set (start_x := Z.max 0 ((width - len line) `div` 2)).
    assert (Hsx : 0 ≤ start_x /\ start_x + len line ≤ width).
    { unfold start_x. split; [lia|].
      assert ((width - len line) `div` 2 ≤ width - len line)
        by (apply Z.div_le_upper_bound; lia).
      lia. }
    assert (Hpost : exists post, quote g = pre ++ line ++ post
              /\ (rest = [] -> post = [])
              /\ (rest <> [] -> post = 32%N :: join [32%N] rest)).
    { destruct rest as [|l2 rest'].
      - exists []. rewrite app_nil_r. simpl in Hq. by repeat split.
      - exists (32%N :: join [32%N] (l2 :: rest')).
        rewrite join_cons in Hq. by repeat split. }
    destruct Hpost as (post & Hq' & Hnil & Hcons).
    destruct (render_line_ok g width (start_y + i) start_x line pre post 0)
      as (ds1 & Hds1 & Hchars1 & Hall1); [done|lia|lia|lia|].
    unfold py_range. rewrite Hds1. cbn [mbind result_bind fst snd].
    destruct rest as [|l2 rest'].
    + rewrite bool_decide_eq_false_2 by (change (len []) with 0 in Hn; lia).
      cbn [mbind result_bind render_lines].
      exists (ds1 ++ []). split; [done|].
      rewrite app_nil_r. split; [simpl; by rewrite app_nil_r|].
      intros k d Hd. destruct (Hall1 k d Hd) as (Hy & Hx & Hqd & Hsd).
      rewrite Hy. replace (start_y + i - (start_y + i)) with 0 by lia.
      rewrite Z.add_0_r. repeat split; try done; lia.
    + rewrite (Hcons ltac:(done)) in Hq'.
      assert (Hmore : 1 ≤ len (l2 :: rest'))
        by (rewrite len_cons; pose proof (len_nonneg_Z rest'); lia).
      rewrite bool_decide_eq_true_2.
      2:{ split; [lia|]. rewrite Hq', !len_app, len_cons.
          pose proof (len_nonneg_Z (join [32%N] (l2 :: rest'))). lia. }
      assert (Hsp : getitem (quote g) (len pre + len line) = Ok 32%N).
      { rewrite Hq', app_assoc, <- len_app. apply getitem_middle. }
      rewrite Hsp. cbn [mbind result_bind].
      rewrite bool_decide_eq_true_2 by done.
      destruct (IH (pre ++ line ++ [32%N]) (i + 1))
        as (ds2 & Hds2 & Hchars2 & Hall2); [|done|lia|lia|lia|].
      { rewrite Hq'. by rewrite <- !app_assoc. }
      rewrite !len_app in Hds2. change (len [32%N]) with 1 in Hds2.
      rewrite Z.add_assoc in Hds2. rewrite Hds2. cbn [mbind result_bind].
      eexists. split; [done|].
      split. { rewrite fmap_app, Hchars1, Hchars2. done. }
      intros k d Hd.
      assert (Hlen1 : length ds1 = length line)
        by (rewrite <- Hchars1; by rewrite length_fmap).
      apply lookup_app_Some in Hd as [Hd|[Hge Hd]].
      * destruct (Hall1 k d Hd) as (Hy & Hx & Hqd & Hsd).
        rewrite Hy. replace (start_y + i - (start_y + i)) with 0 by lia.
        rewrite Z.add_0_r. repeat split; try done; lia.
      * destruct (Hall2 _ d Hd) as (Hy & Hx & Hqd & Hsd).
        rewrite !len_app in Hqd, Hsd. change (len [32%N]) with 1 in Hqd, Hsd.
        replace (len pre + (len line + 1) + Z.of_nat (k - length ds1)
                 + (draw_y d - (start_y + (i + 1))))
          with (len pre + Z.of_nat k + (draw_y d - (start_y + i))) in Hqd, Hsd
          by (unfold len; lia).
        repeat split; try done; lia.
Qed.

(** The whole quote, from line number 0 and index 0. *)
Lemma render_quote_ok g height width start_y quote_lines :
  join [32%N] quote_lines = quote g ->
  Forall (fun line => len line ≤ width) quote_lines ->
  start_y + len quote_lines ≤ height ->
  exists ds,
    render_quote combining decomposition is_Mn g height width start_y
      quote_lines = Ok ds
    /\ draw_char <$> ds = concat quote_lines
    /\ forall (k : nat) d, ds !! k = Some d ->
         start_y ≤ draw_y d < start_y + len quote_lines
         /\ 0 ≤ draw_x d < width
         /\ quote g !! Z.to_nat (Z.of_nat k + (draw_y d - start_y))
            = Some (draw_char d)
         /\ style g (Z.of_nat k + (draw_y d - start_y)) (draw_char d)
            = Ok (draw_style d).
Proof.
  intros Hjoin Hfit Hh. unfold render_quote.
  destruct (render_lines_ok g height width start_y (len quote_lines)
              quote_lines [] 0) as (ds & Hds & Hchars & Hall);
    [done|done|lia|lia|lia|].
  exists ds. split; [done|]. split; [done|].
  intros k d Hd. destruct (Hall k d Hd) as (Hy & Hx & Hqd & Hsd).
  change (len []) with 0 in Hqd, Hsd.
  rewrite Z.add_0_r in Hy, Hqd, Hsd. rewrite Z.add_0_l in Hqd, Hsd.
  repeat split; try done; lia.
Qed.

(** X21: when the lines, joined by single spaces, are the quote, every line
    fits the width and all the rows fit the window, [render_quote] draws
    every character of every line, line by line, and nothing else; each
    character is drawn inside the window, on the row of its line; and the
    [k]-th character drawn, on line number [r], is the character of the
    quote at index [k + r], in the style of that index (the separating
    spaces are counted and not drawn). *)
Theorem render_quote_shows_lines g height width start_y quote_lines :
  join [32%N] quote_lines = quote g ->
  Forall (fun line => len line ≤ width) quote_lines ->
  start_y + len quote_lines ≤ height ->
  exists ds,
    render_quote combining decomposition is_Mn g height width start_y
      quote_lines = Ok ds
    /\ draw_char <$> ds = concat quote_lines
    /\ forall (k : nat) d, ds !! k = Some d ->
         start_y ≤ draw_y d < start_y + len quote_lines
         /\ 0 ≤ draw_x d < width
         /\ quote g !! Z.to_nat (Z.of_nat k + (draw_y d - start_y))
            = Some (draw_char d)
         /\ style g (Z.of_nat k + (draw_y d - start_y)) (draw_char d)
            = Ok (draw_style d).
Proof. apply render_quote_ok. Qed.
End RenderFacts.

Lemma render_quote_shows_lines_witness :
  exists ds,
    render_quote UnicodeSample.combining UnicodeSample.decomposition
      UnicodeSample.is_Mn (mkGame (py "ab cd") (py "ax") None None 0)
      10 20 2 [py "ab"; py "cd"] = Ok ds
    /\ draw_char <$> ds = concat [py "ab"; py "cd"]
    /\ forall (k : nat) d, ds !! k = Some d ->
         2 ≤ draw_y d < 2 + len [py "ab"; py "cd"]
         /\ 0 ≤ draw_x d < 20
         /\ py "ab cd" !! Z.to_nat (Z.of_nat k + (draw_y d - 2))
            = Some (draw_char d)
         /\ style_at UnicodeSample.combining UnicodeSample.decomposition
              UnicodeSample.is_Mn (mkGame (py "ab cd") (py "ax") None None 0)
              (Z.of_nat k + (draw_y d - 2)) (draw_char d)
            = Ok (draw_style d).
Proof.
  apply (render_quote_shows_lines UnicodeSample.combining
           UnicodeSample.decomposition UnicodeSample.is_Mn
           (mkGame (py "ab cd") (py "ax") None None 0) 10 20 2
           [py "ab"; py "cd"]).
  - reflexivity.
  - repeat constructor; vm_compute; discriminate.
  - vm_compute; discriminate.
Defined.

(** ** The game screen *)

(** Words that fit keep every line within the width. *)
Lemma wrap_words_within width fuel words : forall lines cur lines' cur',
  cur <> [] ->
  Forall (fun w => w <> [] /\ len w ≤ width) words ->
  Forall (fun l => len l ≤ width) lines -> len cur ≤ width ->
  wrap_words fuel width (lines, cur) words = Some (lines', cur') ->
  Forall (fun l => len l ≤ width) lines' /\ len cur' ≤ width.
Proof.
  induction words as [|w words IH]; intros lines cur lines' cur' Hcur Hws
    Hlines Hlen Hrun; simpl in Hrun.
  - by injection Hrun as <- <-.
  - apply Forall_cons in Hws as [[Hw Hwlen] Hws].
    rewrite bool_decide_eq_false_2 in Hrun by done.
    case_bool_decide as Hfit; simpl in Hrun.
    + apply (IH lines (cur ++ 32%N :: w)); auto. by destruct cur.
    + unfold start_line in Hrun.
      rewrite bool_decide_eq_true_2 in Hrun by done. simpl in Hrun.
      apply (IH (lines ++ [cur]) w); auto.
      apply Forall_app. split; [done|]. by apply Forall_singleton.
Qed.

(** A text of non-empty words that fit is wrapped into lines that fit and
    that, joined by single spaces, are the text. *)
Lemma wrap_fitting_words fuel text width :
  Forall (fun w => w <> [] /\ len w ≤ width) (split_on 32 text) ->
  exists lines,
    wrap_text_preserve_chars fuel text width = Some lines /\
    join [32%N] lines = text /\
    Forall (fun l => len l ≤ width) lines.
Proof.
  intros Hwords. unfold wrap_text_preserve_chars.
  destruct (split_on 32 text) as [|w words] eqn:Hsplit;
    [by apply split_on_nonempty in Hsplit|].
  apply Forall_cons in Hwords as [[Hne Hlen] Hwords].
  case_bool_decide as Htext.
  { rewrite Htext in Hsplit. simpl in Hsplit. injection Hsplit as <- _. done. }
  cbn [wrap_words wrap_word]. rewrite bool_decide_eq_true_2 by done.
  unfold start_line. rewrite bool_decide_eq_true_2 by done.
  cbn [mbind option_bind].
  destruct (wrap_words_join width fuel words [] w Hne Hwords)
    as (lines & cur & Hrun & Hcur & Hj).
  destruct (wrap_words_within width fuel words [] w lines cur)
    as [Hlines Hcurlen]; auto.
  rewrite Hrun. cbn [mbind option_bind fst snd].
  rewrite bool_decide_eq_true_2 by done.
  eexists. split; [done|]. split.
  - rewrite Hj. simpl app. rewrite <- Hsplit. apply join_split_on.
  - apply Forall_app. split; [done|]. by apply Forall_singleton.
Qed.

Section ScreenFacts.
Variable combining : codepoint -> N.
Variable decomposition : codepoint -> pystr.
Variable is_Mn : codepoint -> bool.
Variable py_round : pyfloat -> Z -> pyfloat.
Variable str_of_float : pyfloat -> pystr.

Local Abbreviation style := (style_at combining decomposition is_Mn).
Local Abbreviation game_screen :=
  (render_game_screen combining decomposition is_Mn py_round str_of_float).

(** X22: the game screen shows the whole quote.  In a window at least 10
    columns wide, for a quote whose words (its pieces between single
    spaces) are non-empty and fit the wrapping width [max(10, width - 10)],
    and a words-per-minute figure that is computed without error: as soon as
    the window has four rows more than the wrapped quote has lines,
    [render_game_screen] draws every character of every line inside the
    window, each in the style of its index in the quote; the quote takes
    the rows from [start_y + 2] on, the words-per-minute line, when drawn,
    is on row [start_y], and the metadata line, when drawn, is on the row
    after one blank row below the quote, inside the window. *)
Theorem game_screen_shows_quote fuel now g quote_metadata height width wpm :
  10 ≤ width ->
  Forall (fun w => w <> [] /\ len w ≤ Z.max 10 (width - 10))
    (split_on 32 (quote g)) ->
  calculate_wpm py_round now g = Ok wpm ->
  exists lines,
    wrap_text_preserve_chars fuel (quote g) (Z.max 10 (width - 10))
    = Some lines
    /\ join [32%N] lines = quote g
    /\ (len lines + 4 ≤ height ->
        let start_y := (height - (len lines + 4)) `div` 2 in
        exists scr,
          game_screen fuel now g quote_metadata height width = Some (Ok scr)
          /\ draw_char <$> quote_cells scr = concat lines
          /\ (forall (k : nat) d, quote_cells scr !! k = Some d ->
                start_y + 2 ≤ draw_y d < start_y + 2 + len lines
                /\ 0 ≤ draw_x d < width
                /\ quote g !! Z.to_nat (Z.of_nat k + (draw_y d - (start_y + 2)))
                   = Some (draw_char d)
                /\ style g (Z.of_nat k + (draw_y d - (start_y + 2)))
                     (draw_char d)
                   = Ok (draw_style d))
          /\ (forall y x t, wpm_line scr = Some (y, x, t) -> y = start_y)
          /\ (forall y x t, metadata_line scr = Some (y, x, t) ->
                y = start_y + 2 + len lines + 1 /\ y < height)).
Proof.
  intros Hw Hwords Hwpm.
  destruct (wrap_fitting_words fuel (quote g) (Z.max 10 (width - 10)) Hwords)
    as (lines & Hwrap & Hjoin & Hfit).
  exists lines. split; [done|]. split; [done|].
  intros Hh start_y.
  assert (Hsy : 0 ≤ start_y /\ start_y + 2 + len lines + 1 < height).
  { unfold start_y. split; [apply Z.div_pos; lia|].
    assert ((height - (len lines + 4)) `div` 2 ≤ height - (len lines + 4))
      by (apply Z.div_le_upper_bound; lia).
    lia. }
  destruct (render_quote_ok combining decomposition is_Mn g height width
              (start_y + 2) lines) as (ds & Hds & Hchars & Hall).
  { done. }
  { eapply Forall_impl; [exact Hfit|]. simpl. intros; lia. }
  { lia. }
  unfold render_game_screen. rewrite Hwrap, Hwpm.
  cbn [mbind result_bind].
  rewrite (Z.max_r 0) by (fold start_y; lia). fold start_y.
  rewrite Hds. cbn [mbind result_bind].
  eexists. split; [done|]. cbn [quote_cells wpm_line metadata_line].
  split; [done|]. split; [done|]. split.
  - intros y x t. destruct (0 <? wpm)%float; [|done].
    unfold center_text. case_bool_decide; [done|]. by intros [= <- _ _].
  - intros y x t. case_bool_decide; [|done].
    unfold center_text. case_bool_decide; [done|]. intros [= <- _ _]. lia.
Qed.
End ScreenFacts.

Lemma game_screen_shows_quote_witness :
  exists lines,
    wrap_text_preserve_chars 0 (py "the quick brown fox") (Z.max 10 (20 - 10))
    = Some lines
    /\ join [32%N] lines = py "the quick brown fox"
    /\ (len lines + 4 ≤ 8 ->
        let start_y := (8 - (len lines + 4)) `div` 2 in
        exists scr,
          render_game_screen UnicodeSample.combining
            UnicodeSample.decomposition UnicodeSample.is_Mn
            FloatSample.round_half_even FloatSample.str_of_float 0 1060
            (mkGame (py "the quick brown fox") (py "the") (Some 1000%float)
               None 0)
            (py "Moby Dick") 8 20 = Some (Ok scr)
          /\ draw_char <$> quote_cells scr = concat lines
          /\ (forall (k : nat) d, quote_cells scr !! k = Some d ->
                start_y + 2 ≤ draw_y d < start_y + 2 + len lines
                /\ 0 ≤ draw_x d < 20
                /\ py "the quick brown fox"
                   !! Z.to_nat (Z.of_nat k + (draw_y d - (start_y + 2)))
                   = Some (draw_char d)
                /\ style_at UnicodeSample.combining
                     UnicodeSample.decomposition UnicodeSample.is_Mn
                     (mkGame (py "the quick brown fox") (py "the")
                        (Some 1000%float) None 0)
                     (Z.of_nat k + (draw_y d - (start_y + 2))) (draw_char d)
                   = Ok (draw_style d))
          /\ (forall y x t, wpm_line scr = Some (y, x, t) -> y = start_y)
          /\ (forall y x t, metadata_line scr = Some (y, x, t) ->
                y = start_y + 2 + len lines + 1 /\ y < 8)).
Proof.
  apply (game_screen_shows_quote UnicodeSample.combining
           UnicodeSample.decomposition UnicodeSample.is_Mn
           FloatSample.round_half_even FloatSample.str_of_float 0 1060
           (mkGame (py "the quick brown fox") (py "the") (Some 1000%float)
              None 0)
           (py "Moby Dick") 8 20 0x1.3333333333333p-1).
  - lia.
  - repeat constructor; (discriminate || (vm_compute; discriminate)).
  - vm_compute. reflexivity.
Defined.

(** ** Numbering the quote files *)

Lemma max_of_ge rest : forall x,
  x ≤ max_of x rest /\ forall n, n ∈ rest -> n ≤ max_of x rest.
Proof.
  unfold max_of. induction rest as [|y rest IH]; intros x; simpl.
  - split; [lia|]. intros n Hn. by apply elem_of_nil in Hn.
  - destruct (IH (Z.max x y)) as [Hx Hrest]. split; [lia|].
    intros n Hn. apply elem_of_cons in Hn as [->|Hn]; [lia|by apply Hrest].
Qed.

Lemma re_search_found r s m :
  re_search r s = Some m -> exists s', re_match r s' = Some m.
Proof.
  induction s as [|c s IH]; cbn [re_search];
    destruct (re_match r _) as [m'|] eqn:Hm; intros H;
    try (injection H as <-; by eexists); [done|by apply IH].
Qed.

Lemma re_match_lits_found hdr r : forall s m,
  re_match (lits hdr ++ r) s = Some m ->
  exists m' s', m = ((fun c => [c]) <$> hdr) ++ m'
                /\ re_match r s' = Some m'.
Proof.
  induction hdr as [|c0 hdr IH]; intros s m H.
  - by exists m, s.
  - change (lits (c0 :: hdr)) with (lit c0 :: lits hdr) in H.
    cbn [app re_match lit quant accepts] in H.
    destruct s as [|c s]; [done|].
    destruct (N.eqb_spec c0 c) as [->|]; [|done].
    destruct (re_match (lits hdr ++ r) s) as [m1|] eqn:Hm1; simpl in H;
      [|done].
    injection H as <-.
    destruct (IH s m1 Hm1) as (m' & s' & -> & Hm').
    by exists m', s'.
Qed.

Lemma re_star_pieces p k : forall s m,
  re_star p k s = Some m ->
  exists g ms, m = g :: ms /\ Forall (fun c => p c = true) g.
Proof.
  assert (Hstop : forall s m, cons [] <$> k s = Some m ->
            exists g ms, m = g :: ms /\ Forall (fun c => p c = true) g).
  { intros s m H. destruct (k s) as [ms|]; [|done]. injection H as <-.
    by exists [], ms. }
  induction s as [|c s IH]; intros m H; cbn [re_star] in H;
    [exact (Hstop _ _ H)|].
  destruct (p c) eqn:Hc; [|exact (Hstop _ _ H)].
  destruct (re_star p k s) as [m1|] eqn:Hm1; [|exact (Hstop _ _ H)].
  destruct (IH m1 eq_refl) as (g & ms & -> & Hg).
  simpl in H. injection H as <-. exists (c :: g), ms. split; [done|].
  by constructor.
Qed.

Section NumberFacts.
Variable digit : codepoint -> option N.
Hypothesis digit_ascii :
  digit <$> py "0123456789" = Some <$> [0; 1; 2; 3; 4; 5; 6; 7; 8; 9]%N.
Hypothesis digit_dot : digit 46%N = None.

Local Abbreviation is_digit := (fun c => isdigit digit c = true).
Local Abbreviation step :=
  (fun (acc : option Z) c => a ← acc; d ← digit c; Some (10 * a + Z.of_N d)).

Lemma digit_values :
  digit 48%N = Some 0%N /\ digit 49%N = Some 1%N /\ digit 50%N = Some 2%N
  /\ digit 51%N = Some 3%N /\ digit 52%N = Some 4%N /\ digit 53%N = Some 5%N
  /\ digit 54%N = Some 6%N /\ digit 55%N = Some 7%N /\ digit 56%N = Some 8%N
  /\ digit 57%N = Some 9%N.
Proof.
  pose proof digit_ascii as H.
  change (py "0123456789")
    with [48; 49; 50; 51; 52; 53; 54; 55; 56; 57]%N in H.
  injection H as H0 H1 H2 H3 H4 H5 H6 H7 H8 H9. by repeat split.
Qed.

Lemma int_of_uint_acc u : forall acc,
  foldl step (Some (Z.pos acc)) (uint_str u)
  = Some (Z.pos (Pos.of_uint_acc u acc)).
Proof.
  destruct digit_values as (H0&H1&H2&H3&H4&H5&H6&H7&H8&H9).
  induction u as [|u IH|u IH|u IH|u IH|u IH|u IH|u IH|u IH|u IH|u IH];
    intros acc; cbn [uint_str foldl Pos.of_uint_acc]; [done|..];
    rewrite ?H0, ?H1, ?H2, ?H3, ?H4, ?H5, ?H6, ?H7, ?H8, ?H9;
    cbn [mbind option_bind];
    match goal with
    | |- foldl _ (Some ?z) _ = Some (Z.pos (Pos.of_uint_acc _ ?a)) =>
        replace z with (Z.pos a) by lia
    end; apply IH.
Qed.

Lemma int_of_uint u :
  int_of_digits digit (uint_str u) = Some (Z.of_N (Pos.of_uint u)).
Proof.
  destruct digit_values as (H0&H1&H2&H3&H4&H5&H6&H7&H8&H9).
  unfold int_of_digits.
  induction u as [|u IH|u IH|u IH|u IH|u IH|u IH|u IH|u IH|u IH|u IH];
    cbn [uint_str foldl Pos.of_uint]; [done|..];
    rewrite ?H0, ?H1, ?H2, ?H3, ?H4, ?H5, ?H6, ?H7, ?H8, ?H9;
    cbn [mbind option_bind]; [exact IH|..];
    match goal with
    | |- foldl _ (Some ?z) _ = Some (Z.of_N (N.pos (Pos.of_uint_acc _ ?a))) =>
        change z with (Z.pos a)
    end; apply int_of_uint_acc.
Qed.

(** [int(str(n)) == n] for an int that is not negative. *)
Lemma int_of_str n : 0 ≤ n -> int_of_digits digit (str_of_int n) = Some n.
Proof.
  intros Hn. unfold str_of_int. destruct (Z.ltb_spec n 0); [lia|].
  rewrite int_of_uint. change Pos.of_uint with N.of_uint.
  rewrite DecimalN.Unsigned.of_to. f_equal. lia.
Qed.

Lemma uint_str_digits u : Forall is_digit (uint_str u).
Proof.
  destruct digit_values as (H0&H1&H2&H3&H4&H5&H6&H7&H8&H9).
  induction u; cbn [uint_str]; constructor; auto;
    unfold isdigit;
    rewrite ?H0, ?H1, ?H2, ?H3, ?H4, ?H5, ?H6, ?H7, ?H8, ?H9; done.
Qed.

Lemma str_of_int_digits n :
  0 ≤ n -> str_of_int n <> [] /\ Forall is_digit (str_of_int n).
Proof.
  intros Hn. split.
  - intros Hnil. pose proof (int_of_str n Hn) as Hint.
    assert (Hz : n = 0) by (rewrite Hnil in Hint; by injection Hint).
    subst n. done.
  - unfold str_of_int. destruct (Z.ltb_spec n 0); [lia|].
    apply uint_str_digits.
Qed.

Lemma quote_file_name_inj n m :
  0 ≤ n -> 0 ≤ m -> quote_file_name n = quote_file_name m -> n = m.
Proof.
  intros Hn Hm H. unfold quote_file_name in H.
  apply app_inv_head in H. apply app_inv_tail in H.
  pose proof (int_of_str n Hn) as Hint. rewrite H, int_of_str in Hint by done.
  by injection Hint.
Qed.

(** The digits of a file name, as the pattern finds them. *)
Lemma re_star_digits g :
  Forall is_digit g ->
  re_star (isdigit digit) (re_match (lits (py ".txt"))) (g ++ py ".txt")
  = Some [g; [46%N]; [116%N]; [120%N]; [116%N]].
Proof.
  induction 1 as [|c g Hc Hg IH].
  - cbn [app py]. change (py ".txt") with [46; 116; 120; 116]%N.
    cbn [re_star]. unfold isdigit at 1. rewrite digit_dot. reflexivity.
  - cbn [app re_star]. rewrite Hc, IH. reflexivity.
Qed.

Lemma re_match_number g :
  g <> [] -> Forall is_digit g ->
  re_match (number_pattern digit) (py "quote_" ++ g ++ py ".txt")
  = Some (((fun c => [c]) <$> py "quote_")
          ++ [g; [46%N]; [116%N]; [120%N]; [116%N]]).
Proof.
  intros Hne Hg. unfold number_pattern. rewrite re_match_lits.
  destruct g as [|c g]; [done|]. apply Forall_cons in Hg as [Hc Hg].
  cbn [app re_match quant accepts]. rewrite Hc.
  change (re_match (lits (py ".txt"))) with (re_match (lits (py ".txt"))).
  rewrite (re_star_digits g Hg). reflexivity.
Qed.

Lemma re_search_number n :
  0 ≤ n ->
  exists m, re_search (number_pattern digit) (quote_file_name n) = Some m
            /\ number_group m = str_of_int n.
Proof.
  intros Hn. destruct (str_of_int_digits n Hn) as [Hne Hd].
  eexists. split.
  - apply re_search_here. unfold quote_file_name. by apply re_match_number.
  - reflexivity.
Qed.

(** Whatever the pattern finds in a name, its group is a non-empty text of
    digits. *)
Lemma number_group_digits s m :
  re_search (number_pattern digit) s = Some m ->
  number_group m <> [] /\ Forall is_digit (number_group m).
Proof.
  intros H. apply re_search_found in H as [s' H].
  unfold number_pattern in H.
  apply re_match_lits_found in H as (m' & s1 & -> & H).
  cbn [re_match quant accepts] in H.
  destruct s1 as [|c s1]; [done|].
  destruct (isdigit digit c) eqn:Hc; [|done].
  destruct (re_star _ _ s1) as [m1|] eqn:Hm1; [|done].
  apply re_star_pieces in Hm1 as (g & ms & -> & Hg).
  simpl in H. injection H as <-.
  change (number_group _) with (c :: g). split; [done|by constructor].
Qed.

Lemma int_of_digits_total g :
  Forall is_digit g -> exists n, int_of_digits digit g = Some n /\ 0 ≤ n.
Proof.
  intros Hg. unfold int_of_digits.
  assert (Hacc : forall acc, 0 ≤ acc ->
            exists n, foldl step (Some acc) g = Some n /\ 0 ≤ n).
  { induction Hg as [|c g Hc Hg IH]; intros acc Hacc; cbn [foldl].
    - by exists acc.
    - unfold isdigit in Hc. destruct (digit c) as [d|]; [|done].
      cbn [mbind option_bind]. apply IH. lia. }
  by apply Hacc.
Qed.

Lemma collect_numbers_total existing :
  exists numbers,
    collect_numbers digit existing = Ok numbers
    /\ Forall (fun k => 0 ≤ k) numbers
    /\ forall n, 0 ≤ n -> quote_file_name n ∈ existing -> n ∈ numbers.
Proof.
  induction existing as [|name rest (numbers & IH & Hpos & Hin)];
    cbn [collect_numbers].
  - exists []. repeat split; [done|]. intros n _ Hn.
    by apply elem_of_nil in Hn.
  - destruct (re_search (number_pattern digit) name) as [m|] eqn:Hm.
    + destruct (number_group_digits name m Hm) as [Hne Hd].
      destruct (int_of_digits_total _ Hd) as (k & Hk & Hk0).
      unfold py_int. rewrite bool_decide_eq_false_2 by done.
      rewrite Hk, IH. cbn [mbind result_bind].
      exists (k :: numbers). split; [done|]. split; [by constructor|].
      intros n Hn Hel. apply elem_of_cons in Hel as [<-|Hel].
      * destruct (re_search_number n Hn) as (m' & Hm' & Hg).
        rewrite Hm' in Hm. injection Hm as <-.
        rewrite Hg, int_of_str in Hk by done. injection Hk as <-.
        apply elem_of_cons. by left.
      * apply elem_of_cons. right. by apply Hin.
    + exists numbers. split; [done|]. split; [done|].
      intros n Hn Hel. apply elem_of_cons in Hel as [<-|Hel]; [|by apply Hin].
      destruct (re_search_number n Hn) as (m' & Hm' & _). congruence.
Qed.

Lemma fnmatch_quote_file_name n : fnmatch_quote_txt (quote_file_name n) = true.
Proof.
  unfold fnmatch_quote_txt, quote_file_name.
  change (py "quote_") with [113; 117; 111; 116; 101; 95]%N.
  cbn [app take drop]. rewrite bool_decide_eq_true_2 by done.
  cbn [andb]. apply bool_decide_eq_true_2.
  rewrite !drop_0, length_app. change (length (py ".txt")) with 4%nat.
  rewrite Nat.add_sub. by rewrite drop_app_length.
Qed.

Lemma glob_quote_file_name (d : directory) n text :
  d !! quote_file_name n = Some text -> quote_file_name n ∈ glob_quote_txt d.
Proof.
  intros Hd. unfold glob_quote_txt. apply list_elem_of_In, filter_In.
  split; [|apply fnmatch_quote_file_name].
  apply list_elem_of_In, list_elem_of_fmap.
  exists (quote_file_name n, text). split; [done|].
  by apply elem_of_map_to_list.
Qed.

(** The first free number: it is computed without an error, and neither it
    nor any greater number names a file of the directory. *)
Lemma get_starting_quote_number_free output_dir :
  exists start,
    get_starting_quote_number digit output_dir = Ok start
    /\ 1 ≤ start
    /\ forall n, start ≤ n ->
         default ∅ output_dir !! quote_file_name n = None.
Proof.
  destruct output_dir as [d|]; cbn [get_starting_quote_number default].
  2:{ exists 1. split; [done|]. split; [lia|]. intros. apply lookup_empty. }
  destruct (collect_numbers_total (glob_quote_txt d))
    as (numbers & Hnum & Hpos & Hin).
  assert (Hfree : forall n text, 0 ≤ n ->
            d !! quote_file_name n = Some text -> n ∈ numbers).
  { intros n text Hn Hd. apply Hin; [done|]. by eapply glob_quote_file_name. }
  case_bool_decide as Hex.
  - exists 1. split; [done|]. split; [lia|]. intros n Hn.
    destruct (d !! quote_file_name n) as [text|] eqn:Hd; [|done].
    apply glob_quote_file_name in Hd. rewrite Hex in Hd.
    by apply elem_of_nil in Hd.
  - rewrite Hnum. cbn [mbind result_bind].
    destruct numbers as [|x rest].
    + exists 1. split; [done|]. split; [lia|]. intros n Hn.
      destruct (d !! quote_file_name n) as [text|] eqn:Hd; [|done].
      apply Hfree in Hd; [|lia]. by apply elem_of_nil in Hd.
    + destruct (max_of_ge rest x) as [Hx Hrest].
      apply Forall_cons in Hpos as [Hx0 _].
      exists (max_of x rest + 1). split; [done|]. split; [lia|]. intros n Hn.
      destruct (d !! quote_file_name n) as [text|] eqn:Hd; [|done].
      apply Hfree in Hd; [|lia].
      apply elem_of_cons in Hd as [->|Hd]; [lia|].
      apply Hrest in Hd. lia.
Qed.

Lemma default_some {A} (x y : A) : default x (Some y) = y.
Proof. reflexivity. Qed.

(** Saving from a counter above which no number names a file: the files of
    before stay as they are, and each quote written is one more file. *)
Lemma save_quotes_keeps items : forall output_dir counter,
  0 ≤ counter ->
  (forall n, counter < n -> default ∅ output_dir !! quote_file_name n = None) ->
  let r := save_quotes items output_dir counter in
  r.2 = counter + len items
  /\ (forall name text, default ∅ output_dir !! name = Some text ->
        default ∅ r.1 !! name = Some text)
  /\ size (default ∅ r.1)
     = (size (default ∅ output_dir)
        + length (List.filter (fun item => item.2) items))%nat.
Proof.
  induction items as [|[[q m] written] items IH];
    intros output_dir counter Hc Hfree.
  - simpl. unfold len. simpl. repeat split; [lia|done|lia].
  - cbn [save_quotes]. unfold save_quote_immediately.
    set (d := default ∅ output_dir) in *.
    destruct written; cbn [fst snd List.filter].
    + destruct (IH (Some (<[quote_file_name (counter + 1)
                            := quote_file_text q m]> d)) (counter + 1))
        as (Hcount & Hkeep & Hsize); [lia| |].
      { intros n Hn. rewrite default_some. rewrite lookup_insert_ne.
        - apply Hfree. lia.
        - intros Heq. apply quote_file_name_inj in Heq; lia. }
      rewrite default_some in Hkeep, Hsize.
      split; [rewrite Hcount, len_cons; lia|]. split.
      * intros name text Hname. apply Hkeep. rewrite lookup_insert_ne; [done|].
        intros <-. rewrite Hfree in Hname by lia. done.
      * rewrite Hsize. rewrite map_size_insert_None by (apply Hfree; lia).
        simpl. lia.
    + destruct (IH (Some d) (counter + 1)) as (Hcount & Hkeep & Hsize);
        [lia| |].
      { intros n Hn. rewrite default_some. apply Hfree. lia. }
      rewrite default_some in Hkeep, Hsize.
      split; [rewrite Hcount, len_cons; lia|]. split; [done|].
      rewrite Hsize. done.
Qed.

(** X23: quote files are never overwritten.  [get_starting_quote_number]
    returns a number, at least 1, without an error; and when [main] saves
    quotes from the counter it sets ([get_starting_quote_number - 1]), every
    file the directory held keeps its name and text, the counter goes up by
    one for each call, and each quote that is written adds one file. *)
Theorem saved_quotes_are_new output_dir items :
  exists start,
    get_starting_quote_number digit output_dir = Ok start
    /\ 1 ≤ start
    /\ let r := save_quotes items output_dir (start - 1) in
       r.2 = start - 1 + len items
       /\ (forall name text, default ∅ output_dir !! name = Some text ->
             default ∅ r.1 !! name = Some text)
       /\ size (default ∅ r.1)
          = (size (default ∅ output_dir)
             + length (List.filter (fun item => item.2) items))%nat.
Proof.
  destruct (get_starting_quote_number_free output_dir)
    as (start & Hstart & Hpos & Hfree).
  exists start. split; [done|]. split; [done|].
  apply save_quotes_keeps; [lia|]. intros n Hn. apply Hfree. lia.
Qed.
End NumberFacts.

Lemma saved_quotes_are_new_witness :
  exists start,
    get_starting_quote_number DigitSample.digit
      (Some {[ py "quote_3.txt" := py "x" ]}) = Ok start
    /\ 1 ≤ start
    /\ let r := save_quotes
                  [(py "q", mkMetadata (py "T") (py "A"), true);
                   (py "r", mkMetadata (py "T") (py "A"), false)]
                  (Some {[ py "quote_3.txt" := py "x" ]}) (start - 1) in
       r.2 = start - 1 + len [(py "q", mkMetadata (py "T") (py "A"), true);
                              (py "r", mkMetadata (py "T") (py "A"), false)]
       /\ (forall name text,
             default ∅ (Some ({[ py "quote_3.txt" := py "x" ]} : directory))
               !! name = Some text ->
             default ∅ r.1 !! name = Some text)
       /\ size (default ∅ r.1)
          = (size (default ∅
                     (Some ({[ py "quote_3.txt" := py "x" ]} : directory)))
             + length (List.filter (fun item => item.2)
                         [(py "q", mkMetadata (py "T") (py "A"), true);
                          (py "r", mkMetadata (py "T") (py "A"), false)]))%nat.
Proof.
  apply (saved_quotes_are_new DigitSample.digit); reflexivity.
Defined.

(** ** The tiers of a saved session *)

Lemma tier_key_inj t t' : tier_key t = tier_key t' -> t = t'.
Proof. destruct t, t'; (done || (vm_compute; discriminate)). Qed.

Section TierFacts.
Variable py_round : pyfloat -> Z -> pyfloat.
Variable py_sum : list pyfloat -> pyfloat.
Variable str_of_float : pyfloat -> pystr.
Variable float_of_str : pystr -> option pyfloat.

Local Abbreviation row_of :=
  (fun r => stats_row py_round str_of_float (rec_now r) (rec_wpm r)
              (rec_elapsed r) (rec_tier r) (rec_game r)).

(** A saved row is counted under the key of its tier. *)
Lemma rows_with_tier_saved t rs :
  rows_with_tier (Some (tier_key t))
    ((fun r => dict_reader_row stats_header (row_of r)) <$> rs)
  = len (filter (fun r => rec_tier r = t) rs).
Proof.
  unfold rows_with_tier, len. f_equal.
  induction rs as [|r rs IH]; [done|].
  rewrite fmap_cons.
  assert (Htier : tier_of (dict_reader_row stats_header (row_of r))
                  = Ok (Some (tier_key (rec_tier r)))).
  { unfold tier_of, dict_get.
    destruct (stats_row_fields py_round str_of_float (rec_now r) (rec_wpm r)
                (rec_elapsed r) (rec_tier r) (rec_game r)) as [_ ->].
    reflexivity. }
  destruct (decide (rec_tier r = t)) as [Ht|Ht].
  - rewrite !filter_cons_True; [|done|by rewrite Htier, Ht].
    simpl. by rewrite IH.
  - rewrite !filter_cons_False; [done|done|].
    rewrite Htier. intros [= Heq]. by apply tier_key_inj in Heq.
Qed.

(** X24: the tiers of the rounds come back from the log.  When
    [get_historical_stats] returns statistics for a log that
    [initialize_stats_file] created and [save_stats] extended, its
    [tier_counts] hold, under the key of each tier, the number of saved
    rounds of that tier, and no key that is not a tier. *)
Theorem saved_tier_counts (rs : list SessionRecord) st :
  get_historical_stats py_round py_sum float_of_str
    (append_all py_round str_of_float rs (initialize_stats_file Missing))
  = Some st ->
  (forall t, default 0 (tier_counts st !! Some (tier_key t))
             = len (filter (fun r => rec_tier r = t) rs))
  /\ (forall k, (forall t, k <> Some (tier_key t)) ->
        default 0 (tier_counts st !! k) = 0).
Proof.
  cbn [initialize_stats_file]. rewrite append_all_rows. cbn [app].
  intros (_ & _ & Hc & _)%get_historical_stats_some.
  rewrite dict_reader_saved in Hc.
  split.
  - intros t. rewrite (count_tiers_spec _ _ _ Hc), lookup_empty.
    cbn [default]. rewrite rows_with_tier_saved. lia.
  - intros k Hk. rewrite (count_tiers_spec _ _ _ Hc), lookup_empty.
    cbn [default]. unfold rows_with_tier, len.
    replace (filter _ _) with (@nil dict_row); [done|].
    clear Hc. symmetry. induction rs as [|r rs IH]; [done|].
    rewrite fmap_cons, filter_cons_False; [done|].
    unfold tier_of, dict_get.
    destruct (stats_row_fields py_round str_of_float (rec_now r) (rec_wpm r)
                (rec_elapsed r) (rec_tier r) (rec_game r)) as [_ ->].
    simpl. intros [= <-]. by apply (Hk (rec_tier r)).
Qed.
End TierFacts.

Lemma saved_tier_counts_witness :
  exists st,
    get_historical_stats FloatSample.round_half_even FloatSample.sum_left
      FloatSample.float_of_decimal
      (append_all FloatSample.round_half_even FloatSample.str_of_float
         sample_records (initialize_stats_file Missing))
    = Some st
    /\ (forall t, default 0 (tier_counts st !! Some (tier_key t))
                  = len (filter (fun r => rec_tier r = t) sample_records))
    /\ (forall k, (forall t, k <> Some (tier_key t)) ->
          default 0 (tier_counts st !! k) = 0).
Proof.
  eexists. split; [vm_compute; reflexivity|].
  apply (saved_tier_counts FloatSample.round_half_even FloatSample.sum_left
           FloatSample.str_of_float FloatSample.float_of_decimal
           sample_records).
  vm_compute. reflexivity.
Defined.

(** ** The quality filter of the extractor *)



Section FilterFacts.
Variable digit : codepoint -> option N.


Lemma is_valid_quote_total extracted q :
  exists b, is_valid_quote digit extracted q = Ok b.
Proof.
  unfold is_valid_quote, int_truediv.
  case_bool_decide as Hlen; [by eexists|].
  destruct (negb _); [by eexists|].
  destruct (existsb _ _); [by eexists|].
  destruct (Z.eqb_spec (len q) 0) as [Hz|_]; [lia|].
  cbn [mbind result_bind].
  destruct (_ <? _)%float; [by eexists|].
  repeat case_bool_decide; by eexists.
Qed.


End FilterFacts.


